(** * VoteBot: the voting state machine and the poll-lifecycle scheduler

    A shallow embedding of the vote engine ([src/services/voteService.ts]),
    the button handler ([src/handlers/buttonHandler.ts]), the poll commands
    ([src/commands/poll.ts]) and the closure scheduler
    ([src/jobs/pollCloser.ts]).

    The TypeScript code talks to three collaborators through module-level
    singletons: the Prisma client ([prisma]), the BullMQ queue
    ([pollCloseQueue]) and the Discord client.  Each of them is a record of
    operations here, passed to the functions that use it, in the way the
    unit tests of the repository replace them by mocks.  Asynchronous
    functions are sequential programs in a state-and-exception monad; a
    [Date] is its number of milliseconds since the epoch. *)

From Stdlib Require Import ZArith String List Floats.
From stdpp Require Import gmap strings list fin_maps pretty.

Local Open Scope Z_scope.
Local Open Scope string_scope.

(** ** Completions: a JavaScript computation returns or throws *)

(** An error object: the name of its constructor and its [code] property
    (only the errors of the Prisma client carry one). *)
Record JsError := mkError {
  err_name : string;
  err_code : option string
}.

Inductive Completion (A : Type) : Type :=
| Normal (a : A)
| Throw (e : JsError).
Arguments Normal {A} a.
Arguments Throw {A} e.

(** The monad of the asynchronous functions over a state [S]. *)
Definition M (S A : Type) : Type := S -> Completion A * S.

Definition ret {S A} (a : A) : M S A := fun s => (Normal a, s).

Definition throw {S A} (e : JsError) : M S A := fun s => (Throw e, s).

Definition bind {S A B} (m : M S A) (k : A -> M S B) : M S B :=
  fun s =>
    match m s with
    | (Normal a, s') => k a s'
    | (Throw e, s') => (Throw e, s')
    end.

(** [try { m } catch (error) { h error }]: the state reached when the
    exception was raised is kept, the store has no transaction here. *)
Definition try_catch {S A} (m : M S A) (h : JsError -> M S A) : M S A :=
  fun s =>
    match m s with
    | (Normal a, s') => (Normal a, s')
    | (Throw e, s') => h e s'
    end.

(** A [try] whose handler returns: the function as a whole never throws. *)
Definition try_return {S A} (m : M S A) (h : JsError -> A) : S -> A * S :=
  fun s =>
    match m s with
    | (Normal a, s') => (a, s')
    | (Throw e, s') => (h e, s')
    end.

Declare Scope js_scope.
Delimit Scope js_scope with js.
Notation "'let*' x ':=' m 'in' k" := (bind m (fun x => k))
  (at level 10, x name, m at level 100, k at level 200,
   format "'[v' 'let*'  x  :=  m  'in' '/' k ']'") : js_scope.

Definition TypeError : JsError := mkError "TypeError" None.
Definition ReferenceError : JsError := mkError "ReferenceError" None.

(** Reading a property of a relation that the query did not include:
    the value is [undefined] and using it raises a [TypeError]. *)
Definition included {S A} (o : option A) : M S A :=
  match o with
  | Some a => ret a
  | None => throw TypeError
  end.

(** A [const] binding: reading it while its own initializer is being
    evaluated (the temporal dead zone) raises a [ReferenceError]. *)
Inductive Binding (A : Type) : Type :=
| Uninitialized
| Initialized (a : A).
Arguments Uninitialized {A}.
Arguments Initialized {A} a.

Definition read_binding {S A} (b : Binding A) : M S A :=
  match b with
  | Initialized a => ret a
  | Uninitialized => throw ReferenceError
  end.

(** ** Data model *)

Inductive PollStatus := OPEN | CLOSED.

Definition PollStatus_eqb (a b : PollStatus) : bool :=
  match a, b with
  | OPEN, OPEN | CLOSED, CLOSED => true
  | _, _ => false
  end.

#[global] Instance PollStatus_eq_dec : EqDecision PollStatus.
Proof. solve_decision. Defined.

Record Poll := mkPoll {
  poll_id : string;
  title : string;
  description : option string;
  guildId : string;
  channelId : string;
  messageId : option string;
  creatorId : string;
  allowMultiple : bool;
  isAnonymous : bool;
  status : PollStatus;
  expiresAt : option Z;
  createdAt : Z
}.

Record PollOption := mkOption {
  option_id : string;
  option_pollId : string;
  text : string;
  emoji : string;
  position : Z
}.

Record Vote := mkVote {
  vote_id : string;
  vote_userId : string;
  vote_pollId : string;
  vote_optionId : string
}.

#[global] Instance Vote_eq_dec : EqDecision Vote.
Proof. solve_decision. Defined.

Definition set_status (s : PollStatus) (p : Poll) : Poll :=
  mkPoll (poll_id p) (title p) (description p) (guildId p) (channelId p)
         (messageId p) (creatorId p) (allowMultiple p) (isAnonymous p)
         s (expiresAt p) (createdAt p).

Definition set_messageId (m : string) (p : Poll) : Poll :=
  mkPoll (poll_id p) (title p) (description p) (guildId p) (channelId p)
         (Some m) (creatorId p) (allowMultiple p) (isAnonymous p)
         (status p) (expiresAt p) (createdAt p).

(** ** The Prisma client

    [prisma.poll.findUnique] takes an argument object; the fields below are
    the ones the code sets.  [include.options.include.votes] is [false]
    ([NoVotes]), [true] ([AllVotes]) or [{ select: { userId: true } }]
    ([SelectUserId]). *)

Inductive VotesInclude := NoVotes | AllVotes | SelectUserId.

Record OptionsInclude := mkOptionsInclude {
  include_option_votes : VotesInclude;
  orderBy_position_asc : bool
}.

Record FindPollArgs := mkFindPollArgs {
  where_id : string;
  include_options : option OptionsInclude;
  include_votes_where_userId : option string;
  include_count_votes : bool
}.

(** What [findUnique] returns: the row and the relations that were asked
    for ([None] for a relation that was not included). *)
Record OptionPayload := mkOptionPayload {
  option_row : PollOption;
  option_votes : option (list Vote)
}.

Record PollPayload := mkPollPayload {
  poll_row : Poll;
  poll_options : option (list OptionPayload);
  poll_votes : option (list Vote);
  poll_count_votes : option nat
}.

Record VoteCreateData := mkVoteData {
  data_userId : string;
  data_pollId : string;
  data_optionId : string
}.

Inductive PollUpdateData :=
| UpdateStatus (s : PollStatus)
| UpdateMessageId (m : string).

Record OptionCreateData := mkOptionData {
  data_text : string;
  data_emoji : string;
  data_position : Z
}.

Record PollCreateData := mkPollData {
  data_title : string;
  data_description : option string;
  data_guildId : string;
  data_channelId : string;
  data_creatorId : string;
  data_allowMultiple : bool;
  data_isAnonymous : bool;
  data_expiresAt : option Z;
  data_options : list OptionCreateData
}.

(** The three tables and the supply of new row identities. *)
Record DB := mkDB {
  polls : gmap string Poll;
  pollOptions : list PollOption;
  votes : list Vote;
  idSupply : nat
}.

(** The operations of the client that the code calls. *)
Record PrismaClient := mkPrisma {
  poll_findUnique : FindPollArgs -> M DB (option PollPayload);
  poll_update : string -> PollUpdateData -> M DB Poll;
  poll_create : PollCreateData -> Z -> M DB PollPayload;
  vote_create : VoteCreateData -> M DB Vote;
  vote_delete : string -> M DB Vote;
  vote_deleteMany : string -> string -> M DB nat;
  vote_findMany : string -> string -> M DB (list Vote)
}.

(** Errors of the client: [P2002] is a unique-constraint violation,
    [P2025] a record that an update or a delete did not find. *)
Definition PrismaKnownError (code : string) : JsError :=
  mkError "PrismaClientKnownRequestError" (Some code).

Definition P2002 : JsError := PrismaKnownError "P2002".
Definition P2025 : JsError := PrismaKnownError "P2025".

(** *** The store in memory

    [src/database] and the Prisma schema are not among the sources.  The
    store below offers what the core consumes: point lookup of a poll
    with its options and a subset of its votes attached, insertion and
    deletion of a vote row, deletion of all the votes of a user on a
    poll, status update, and the uniqueness constraint over (poll, voter,
    option) that rejects a second row for a triple. *)

Definition votes_of_poll (p : string) (vs : list Vote) : list Vote :=
  filter (fun v => vote_pollId v = p) vs.

Definition votes_of_user (p u : string) (vs : list Vote) : list Vote :=
  filter (fun v => vote_pollId v = p /\ vote_userId v = u) vs.

Definition votes_of_option (o : string) (vs : list Vote) : list Vote :=
  filter (fun v => vote_optionId v = o) vs.

Definition votes_of_triple (p u o : string) (vs : list Vote) : list Vote :=
  filter (fun v => vote_pollId v = p /\ vote_userId v = u /\ vote_optionId v = o) vs.

(** [ORDER BY position ASC], a stable insertion sort. *)
Fixpoint insert_by_position (o : PollOption) (l : list PollOption) : list PollOption :=
  match l with
  | [] => [o]
  | o' :: l' =>
      if (position o <=? position o')%Z then o :: l
      else o' :: insert_by_position o l'
  end.

Definition sort_by_position (l : list PollOption) : list PollOption :=
  foldr insert_by_position [] l.

Definition attach_votes (inc : VotesInclude) (vs : list Vote) (o : PollOption) : OptionPayload :=
  mkOptionPayload o
    match inc with
    | NoVotes => None
    | AllVotes | SelectUserId => Some (votes_of_option (option_id o) vs)
    end.

Definition load_options (db : DB) (p : string) (inc : OptionsInclude) : list OptionPayload :=
  let rows := filter (fun o => option_pollId o = p) (pollOptions db) in
  let rows := if orderBy_position_asc inc then sort_by_position rows else rows in
  map (attach_votes (include_option_votes inc) (votes db)) rows.

Definition load_poll (db : DB) (args : FindPollArgs) (row : Poll) : PollPayload :=
  let p := where_id args in
  mkPollPayload row
    (load_options db p <$> include_options args)
    ((fun u => votes_of_user p u (votes db)) <$> include_votes_where_userId args)
    (if include_count_votes args
     then Some (length (votes_of_poll p (votes db))) else None).

(** Modelled from the spec: [prisma.poll.findUnique] of the poll store
    (the Prisma client and schema are missing), the point lookup by poll
    id with the relations that were asked for attached. *)
Definition mem_poll_findUnique (args : FindPollArgs) : M DB (option PollPayload) :=
  fun db => (Normal (load_poll db args <$> polls db !! where_id args), db).

Definition apply_update (d : PollUpdateData) (p : Poll) : Poll :=
  match d with
  | UpdateStatus s => set_status s p
  | UpdateMessageId m => set_messageId m p
  end.

(** Modelled from the spec: [prisma.poll.update] of the poll store (the
    Prisma client and schema are missing); a poll that is not there is
    the error [P2025]. *)
Definition mem_poll_update (p : string) (d : PollUpdateData) : M DB Poll :=
  fun db =>
    match polls db !! p with
    | None => (Throw P2025, db)
    | Some row =>
        let row' := apply_update d row in
        (Normal row',
         mkDB (<[p := row']> (polls db)) (pollOptions db) (votes db) (idSupply db))
    end.

Definition new_id (prefix : string) (n : nat) : string := prefix +:+ pretty n.

Definition triple_taken (d : VoteCreateData) (vs : list Vote) : bool :=
  bool_decide (votes_of_triple (data_pollId d) (data_userId d) (data_optionId d) vs <> []).

(** Modelled from the spec: [prisma.vote.create] of the poll store (the
    Prisma client and schema are missing), with the constraint that makes
    (pollId, userId, optionId) unique: a second row for a triple is
    rejected with [P2002]. *)
Definition mem_vote_create (d : VoteCreateData) : M DB Vote :=
  fun db =>
    if triple_taken d (votes db) then (Throw P2002, db)
    else
      let v := mkVote (new_id "vote" (idSupply db))
                      (data_userId d) (data_pollId d) (data_optionId d) in
      (Normal v,
       mkDB (polls db) (pollOptions db) (votes db ++ [v]) (S (idSupply db))).

(** Modelled from the spec: [prisma.vote.delete] of the poll store (the
    Prisma client and schema are missing), deletion of the row of an
    identity; a row that is not there is the error [P2025]. *)
Definition mem_vote_delete (i : string) : M DB Vote :=
  fun db =>
    match find (fun v => String.eqb (vote_id v) i) (votes db) with
    | None => (Throw P2025, db)
    | Some v =>
        (Normal v,
         mkDB (polls db) (pollOptions db)
              (filter (fun v => vote_id v <> i) (votes db)) (idSupply db))
    end.

(** Modelled from the spec: [prisma.vote.deleteMany] of the poll store
    (the Prisma client and schema are missing), deletion of all the votes
    of a user on a poll; the result is their number. *)
Definition mem_vote_deleteMany (p u : string) : M DB nat :=
  fun db =>
    (Normal (length (votes_of_user p u (votes db))),
     mkDB (polls db) (pollOptions db)
          (filter (fun v => ~ (vote_pollId v = p /\ vote_userId v = u)) (votes db))
          (idSupply db)).

(** Modelled from the spec: [prisma.vote.findMany] of the poll store (the
    Prisma client and schema are missing), the votes of a user on a
    poll. *)
Definition mem_vote_findMany (p u : string) : M DB (list Vote) :=
  fun db => (Normal (votes_of_user p u (votes db)), db).

(** The options of a new poll get the identities that follow the poll's
    own in the supply. *)
Definition new_options (p : string) (n : nat) (ds : list OptionCreateData) : list PollOption :=
  imap (fun i d => mkOption (new_id "option" (n + i)) p
                            (data_text d) (data_emoji d) (data_position d)) ds.

(** Modelled from the spec: [prisma.poll.create] of the poll store (the
    Prisma client and schema are missing).  A new poll is OPEN and has no
    message yet; an identity that is taken is the error [P2002]. *)
Definition mem_poll_create (d : PollCreateData) (now : Z) : M DB PollPayload :=
  fun db =>
    let p := new_id "poll" (idSupply db) in
    match polls db !! p with
    | Some _ => (Throw P2002, db)
    | None =>
        let row := mkPoll p (data_title d) (data_description d) (data_guildId d)
                          (data_channelId d) None (data_creatorId d)
                          (data_allowMultiple d) (data_isAnonymous d) OPEN
                          (data_expiresAt d) now in
        let opts := new_options p (S (idSupply db)) (data_options d) in
        (Normal (mkPollPayload row (Some (map (fun o => mkOptionPayload o None) opts))
                               None None),
         mkDB (<[p := row]> (polls db)) (pollOptions db ++ opts) (votes db)
              (S (idSupply db) + length opts))
    end.

(** Modelled from the spec: the poll store as a Prisma client (the module
    [src/database] is missing). *)
Definition memPrisma : PrismaClient :=
  mkPrisma mem_poll_findUnique mem_poll_update mem_poll_create
           mem_vote_create mem_vote_delete mem_vote_deleteMany mem_vote_findMany.

(** ** JavaScript numbers and [Math.round]

    A [number] is an IEEE 754 double.  [Math.round x] is the integer
    nearest to [x], a tie going up: the floor of [x + 1/2], computed
    exactly from the mantissa and the exponent of [x]. *)

Definition number_of_Z (n : Z) : float :=
  if (n <? 0)%Z then PrimFloat.opp (PrimFloat.of_uint63 (Uint63.of_Z (- n)))
  else PrimFloat.of_uint63 (Uint63.of_Z n).

Definition number_of_nat (n : nat) : float := number_of_Z (Z.of_nat n).

Definition Math_round (x : float) : float :=
  match Prim2SF x with
  | S754_finite s m e =>
      if (0 <=? e)%Z then x
      else
        let v := if s then Z.neg m else Z.pos m in
        let n := ((2 * v + 2 ^ (- e)) / 2 ^ (1 - e))%Z in
        if (n =? 0)%Z then (if s then PrimFloat.neg_zero else PrimFloat.zero)
        else number_of_Z n
  | _ => x
  end.

(** [totalVotes > 0 ? Math.round((count / totalVotes) * 100) : 0] *)
Definition percentage_of (count totalVotes : nat) : float :=
  if (0 <? totalVotes)%nat
  then Math_round (PrimFloat.mul (PrimFloat.div (number_of_nat count)
                                                (number_of_nat totalVotes))
                                 (number_of_nat 100))
  else PrimFloat.zero.

(** ** The vote engine ([src/services/voteService.ts]) *)

Inductive VoteAction := added | removed.

Record VoteOutcome := mkOutcome {
  success : bool;
  message : string;
  action : VoteAction
}.

Record VoteResult := mkVoteResult {
  result_optionId : string;
  result_text : string;
  count : nat;
  percentage : float;
  voters : option (list string)
}.

Record PollResults := mkPollResults {
  results_pollId : string;
  results_title : string;
  totalVotes : nat;
  results : list VoteResult;
  results_isAnonymous : bool;
  results_status : PollStatus
}.

(** The double quote of the template strings. *)
Definition dquote : string := String (Ascii.ascii_of_nat 34) EmptyString.

Definition quoted (s : string) : string := dquote +:+ s +:+ dquote.

Definition msg_poll_not_found := "Poll not found".
Definition msg_poll_closed := "Poll is closed".
Definition msg_poll_expired := "Poll has expired".
Definition msg_invalid_option := "Invalid option".
Definition msg_already_voted := "You have already voted for this option".
Definition msg_vote_error := "An error occurred while processing your vote".
Definition msg_removed (t : string) := "Removed vote for " +:+ quoted t.
Definition msg_voted (t : string) := "Voted for " +:+ quoted t.

(** [poll.expiresAt && poll.expiresAt < new Date()] *)
Definition expired (p : Poll) (now : Z) : bool :=
  match expiresAt p with
  | Some t => (t <? now)%Z
  | None => false
  end.

Fixpoint mapM {S A B} (f : A -> M S B) (l : list A) : M S (list B) :=
  match l with
  | [] => ret []
  | a :: l' => (let* b := f a in let* bs := mapM f l' in ret (b :: bs))%js
  end.

Section VoteService.

Variable prisma : PrismaClient.

Definition castVote_args (pollId userId : string) : FindPollArgs :=
  mkFindPollArgs pollId (Some (mkOptionsInclude NoVotes false)) (Some userId) false.

(** The body of [castVote] after the existing vote was looked for and not
    found: replace under single select, then insert. *)
Definition castVote_add (pollId userId optionId : string)
    (poll : Poll) (votes : list Vote) (selectedOption : PollOption)
  : M DB VoteOutcome :=
  (let* _ := (if negb (allowMultiple poll) && (0 <? length votes)%nat
          then (let* n := vote_deleteMany prisma pollId userId in ret tt)
          else ret tt) in
   try_catch
     (let* v := vote_create prisma (mkVoteData userId pollId optionId) in
      ret (mkOutcome true (msg_voted (text selectedOption)) added))
     (fun error =>
        if bool_decide (err_code error = Some "P2002")
        then ret (mkOutcome false msg_already_voted added)
        else throw error))%js.

Definition castVote_body (pollId userId optionId : string) (now : Z)
  : M DB VoteOutcome :=
  (let* poll := poll_findUnique prisma (castVote_args pollId userId) in
   match poll with
   | None => ret (mkOutcome false msg_poll_not_found added)
   | Some poll =>
       if PollStatus_eqb (status (poll_row poll)) CLOSED
       then ret (mkOutcome false msg_poll_closed added)
       else if expired (poll_row poll) now
       then ret (mkOutcome false msg_poll_expired added)
       else
         let* options := included (poll_options poll) in
         match find (fun opt => String.eqb (option_id (option_row opt)) optionId) options with
         | None => ret (mkOutcome false msg_invalid_option added)
         | Some selectedOption =>
             let* votes := included (poll_votes poll) in
             match find (fun vote => String.eqb (vote_optionId vote) optionId) votes with
             | Some existingVote =>
                 let* v := vote_delete prisma (vote_id existingVote) in
                 ret (mkOutcome true (msg_removed (text (option_row selectedOption))) removed)
             | None =>
                 castVote_add pollId userId optionId (poll_row poll) votes
                              (option_row selectedOption)
             end
         end
   end)%js.

Definition castVote (pollId userId optionId : string) (now : Z)
  : DB -> VoteOutcome * DB :=
  try_return (castVote_body pollId userId optionId now)
             (fun error => mkOutcome false msg_vote_error added).

(** The argument object of the query of [getPollResults].  It reads
    [poll], the constant that the query initializes. *)
Definition getPollResults_args (pollId : string) (poll : Binding (option PollPayload))
  : M DB FindPollArgs :=
  (let* p := read_binding poll in
   let anonymous := match p with
                    | Some p => isAnonymous (poll_row p)
                    | None => false
                    end in
   ret (mkFindPollArgs pollId
          (Some (mkOptionsInclude (if anonymous then NoVotes else SelectUserId) true))
          None true))%js.

Definition tally_option (poll : PollPayload) (totalVotes : nat) (option : OptionPayload)
  : M DB VoteResult :=
  (let* votes := included (option_votes option) in
   let count := length votes in
   ret (mkVoteResult (option_id (option_row option)) (text (option_row option))
          count (percentage_of count totalVotes)
          (if isAnonymous (poll_row poll) then None else Some (map vote_userId votes))))%js.

(** The [try] block of [getPollResults]; [binding] is the state of the
    constant [poll] while its initializer, the query, is evaluated. *)
Definition getPollResults_from (pollId : string) (binding : Binding (option PollPayload))
  : M DB (option PollResults) :=
  (let* args := getPollResults_args pollId binding in
   let* poll := poll_findUnique prisma args in
   match poll with
   | None => ret None
   | Some poll =>
       let* totalVotes := included (poll_count_votes poll) in
       let* options := included (poll_options poll) in
       let* results := mapM (tally_option poll totalVotes) options in
       ret (Some (mkPollResults (poll_id (poll_row poll)) (title (poll_row poll))
                    totalVotes results (isAnonymous (poll_row poll))
                    (status (poll_row poll))))
   end)%js.

(** [const poll = await prisma.poll.findUnique(...)]: the constant is not
    initialized before the query has returned. *)
Definition getPollResults_body (pollId : string) : M DB (option PollResults) :=
  getPollResults_from pollId Uninitialized.

Definition getPollResults (pollId : string) : DB -> option PollResults * DB :=
  try_return (getPollResults_body pollId) (fun error => None).

Definition getUserVotes (pollId userId : string) : DB -> list string * DB :=
  try_return
    (let* votes := vote_findMany prisma pollId userId in ret (map vote_optionId votes))%js
    (fun error => []).

End VoteService.

(** ** The delayed-job queue and the Discord client *)

(** A job of the [poll-close] queue: its name, its payload and the delay
    it was added with, in milliseconds. *)
Record Job := mkJob {
  job_name : string;
  job_pollId : string;
  job_delay : Z
}.

(** The operations of [pollCloseQueue] that the code calls: [add] with a
    name, a payload, a delay and a job id; [getJob]; [remove] of a job. *)
Record QueueClient := mkQueue {
  queue_add : string -> string -> Z -> string -> M (gmap string Job) Job;
  queue_getJob : string -> M (gmap string Job) (option Job);
  job_remove : string -> M (gmap string Job) unit
}.

(** Modelled from the spec: [Queue.add] of the delayed-execution facility
    (BullMQ over Redis, a library outside the sources).  Jobs are keyed by
    their id; adding under an id that is taken leaves the pending job as
    it is, so that no poll has two live jobs. *)
Definition mem_queue_add (name data : string) (delay : Z) (jobId : string)
  : M (gmap string Job) Job :=
  fun q =>
    match q !! jobId with
    | Some j => (Normal j, q)
    | None => let j := mkJob name data delay in (Normal j, <[jobId := j]> q)
    end.

(** Modelled from the spec: [Queue.getJob] of the delayed-execution
    facility (BullMQ, outside the sources). *)
Definition mem_queue_getJob (jobId : string) : M (gmap string Job) (option Job) :=
  fun q => (Normal (q !! jobId), q).

(** Modelled from the spec: [Job.remove] of the delayed-execution
    facility (BullMQ, outside the sources); an absent job is no error. *)
Definition mem_job_remove (jobId : string) : M (gmap string Job) unit :=
  fun q => (Normal tt, delete jobId q).

(** Modelled from the spec: the delayed-execution facility as a queue
    client (BullMQ, outside the sources). *)
Definition memQueue : QueueClient :=
  mkQueue mem_queue_add mem_queue_getJob mem_job_remove.

(** What reaches Discord.  The text of embeds and buttons is left out:
    rendering is not part of the core. *)
Inductive DiscordEvent :=
| Reply (content : string) (ephemeral : bool)
| MessageEdited (poll : string)
| ClosureAnnounced (poll : string).

Record DiscordClient := mkDiscord {
  (** [interaction.reply]; the result is the id of the message sent *)
  interaction_reply : string -> bool -> M (list DiscordEvent) string;
  (** [interaction.message.edit] of [updatePollMessage] *)
  message_edit : PollPayload -> M (list DiscordEvent) unit;
  (** the worker: fetch channel and message, edit it, send the results *)
  finalize_message : PollPayload -> M (list DiscordEvent) unit
}.

(** A Discord client that is reachable: every call succeeds and is
    recorded. *)
Definition okDiscord : DiscordClient :=
  mkDiscord
    (fun content ephemeral log =>
       (Normal (new_id "message" (length log)), (log ++ [Reply content ephemeral])%list))
    (fun poll log => (Normal tt, (log ++ [MessageEdited (poll_id (poll_row poll))])%list))
    (fun poll log => (Normal tt, (log ++ [ClosureAnnounced (poll_id (poll_row poll))])%list)).

(** The state of the whole system. *)
Record World := mkWorld {
  db : DB;
  queue : gmap string Job;
  discord : list DiscordEvent
}.

Definition on_db {A} (m : M DB A) : M World A :=
  fun w => let (r, d) := m (db w) in (r, mkWorld d (queue w) (discord w)).

Definition on_queue {A} (m : M (gmap string Job) A) : M World A :=
  fun w => let (r, q) := m (queue w) in (r, mkWorld (db w) q (discord w)).

Definition on_discord {A} (m : M (list DiscordEvent) A) : M World A :=
  fun w => let (r, l) := m (discord w) in (r, mkWorld (db w) (queue w) l).

(** ** The closure scheduler ([src/jobs/pollCloser.ts]) *)

Definition jobId_of (pollId : string) : string := "poll-" +:+ pollId.

Section Scheduler.

Variable prisma : PrismaClient.
Variable pollCloseQueue : QueueClient.
Variable client : DiscordClient.

(** [closeAt.getTime() - Date.now()] is the delay. *)
Definition addPollCloseJob (pollId : string) (closeAt now : Z) : M World unit :=
  (let* j := on_queue (queue_add pollCloseQueue "close-poll" pollId
                                 (closeAt - now) (jobId_of pollId)) in
   ret tt)%js.

Definition removePollCloseJob (pollId : string) : M World unit :=
  (let* job := on_queue (queue_getJob pollCloseQueue (jobId_of pollId)) in
   match job with
   | Some _ => on_queue (job_remove pollCloseQueue (jobId_of pollId))
   | None => ret tt
   end)%js.

Definition worker_args (pollId : string) : FindPollArgs :=
  mkFindPollArgs pollId (Some (mkOptionsInclude AllVotes true)) None true.

(** [if (poll.messageId)]: neither null nor the empty string. *)
Definition has_message (p : Poll) : bool :=
  match messageId p with
  | Some m => negb (String.eqb m "")
  | None => false
  end.

(** The processor that [createPollCloseWorker] gives to the worker; an
    exception that leaves it makes the queue retry the job. *)
Definition pollCloseProcessor (pollId : string) : M World unit :=
  try_catch
    (let* poll := on_db (poll_findUnique prisma (worker_args pollId)) in
     match poll with
     | None => ret tt
     | Some poll =>
         if PollStatus_eqb (status (poll_row poll)) CLOSED then ret tt
         else
           let* p := on_db (poll_update prisma pollId (UpdateStatus CLOSED)) in
           if has_message (poll_row poll)
           then try_catch (on_discord (finalize_message client poll))
                          (fun error => ret tt)
           else ret tt
     end)%js
    (fun error => throw error).

End Scheduler.

(** ** The poll commands ([src/commands/poll.ts]) *)

Definition EMOJI_OPTIONS : list string :=
  ["1️⃣"; "2️⃣"; "3️⃣"; "4️⃣"; "5️⃣"; "6️⃣"; "7️⃣"; "8️⃣"; "9️⃣"; "🔟"].

Definition reply_poll_not_found := "Poll not found.".
Definition reply_not_creator := "Only the poll creator can close this poll.".
Definition reply_already_closed := "This poll is already closed.".
Definition reply_close_error := "An error occurred while closing the poll.".
Definition reply_closed (t : string) := "Poll " +:+ quoted t +:+ " has been closed.".
Definition reply_too_few := "A poll must have at least 2 options.".
Definition reply_too_many := "A poll cannot have more than 10 options.".
Definition reply_create_error := "An error occurred while creating the poll.".

(** The options of [/poll create], the option list already split at the
    semicolons, trimmed and without its empty entries. *)
Record CreateOptions := mkCreateOptions {
  opt_title : string;
  opt_options : list string;
  opt_description : option string;
  opt_multiple : option bool;
  opt_anonymous : option bool;
  opt_duration : option Z
}.

Section Commands.

Variable prisma : PrismaClient.
Variable pollCloseQueue : QueueClient.
Variable client : DiscordClient.

Definition reply (content : string) (ephemeral : bool) : M World unit :=
  (let* m := on_discord (interaction_reply client content ephemeral) in ret tt)%js.

Definition closePoll_args (pollId : string) : FindPollArgs :=
  mkFindPollArgs pollId (Some (mkOptionsInclude AllVotes false)) None false.

(** [closePoll]: [pollId] is the [poll_id] option of the command and
    [user] is [interaction.user.id]. *)
Definition closePoll (pollId user : string) : M World unit :=
  try_catch
    (let* poll := on_db (poll_findUnique prisma (closePoll_args pollId)) in
     match poll with
     | None => reply reply_poll_not_found true
     | Some poll =>
         if negb (String.eqb (creatorId (poll_row poll)) user)
         then reply reply_not_creator true
         else if PollStatus_eqb (status (poll_row poll)) CLOSED
         then reply reply_already_closed true
         else
           let* p := on_db (poll_update prisma pollId (UpdateStatus CLOSED)) in
           reply (reply_closed (title (poll_row poll))) false
     end)%js
    (fun error => reply reply_close_error true).

(** [duration ? new Date(Date.now() + duration * 60 * 1000) : null] *)
Definition expiry_of (duration : option Z) (now : Z) : option Z :=
  match duration with
  | Some d => if (d =? 0)%Z then None else Some (now + d * 60 * 1000)%Z
  | None => None
  end.

Definition option_data (options : list string) : list OptionCreateData :=
  imap (fun index text =>
          mkOptionData text (default "" (EMOJI_OPTIONS !! index)) (Z.of_nat index))
       options.

(** [createPoll]: [guild], [channel] and [user] come from the
    interaction, [now] is the instant read for [expiresAt] and [later]
    the one read when the closure job is added.  The reply that carries
    the embed is recorded with the title as its content. *)
Definition createPoll (o : CreateOptions) (guild channel user : string)
    (now later : Z) : M World unit :=
  let options := opt_options o in
  if (length options <? 2)%nat then reply reply_too_few true
  else if (10 <? length options)%nat then reply reply_too_many true
  else
    let expiresAt := expiry_of (opt_duration o) now in
    try_catch
      (let* poll := on_db (poll_create prisma
                             (mkPollData (opt_title o) (opt_description o)
                                guild channel user
                                (default false (opt_multiple o))
                                (default false (opt_anonymous o))
                                expiresAt (option_data options))
                             now) in
       let* message := on_discord (interaction_reply client (opt_title o) false) in
       let* p := on_db (poll_update prisma (poll_id (poll_row poll))
                                    (UpdateMessageId message)) in
       match expiresAt with
       | Some closeAt =>
           addPollCloseJob pollCloseQueue (poll_id (poll_row poll)) closeAt later
       | None => ret tt
       end)%js
      (fun error => reply reply_create_error true).

End Commands.

(** ** The vote button ([src/handlers/buttonHandler.ts]) *)

(** [s.split(sep)] for a separator of one character. *)
Fixpoint split (sep : Ascii.ascii) (s : string) : list string :=
  match s with
  | EmptyString => [EmptyString]
  | String c s' =>
      if Ascii.eqb c sep then EmptyString :: split sep s'
      else match split sep s' with
           | h :: t => String c h :: t
           | [] => [String c EmptyString]
           end
  end.

Definition underscore : Ascii.ascii := Ascii.ascii_of_nat 95.

Definition PrismaClientValidationError : JsError :=
  mkError "PrismaClientValidationError" None.

Definition reply_button_closed := "This poll is closed.".
Definition reply_button_expired := "This poll has expired.".
Definition reply_button_invalid := "Invalid option selected.".
Definition reply_button_duplicate := "You have already voted for this option.".
Definition reply_button_error := "An error occurred while processing your vote.".
Definition reply_button_removed (t : string) := "Removed your vote for " +:+ quoted t +:+ ".".
Definition reply_button_voted (t : string) := "Voted for " +:+ quoted t +:+ ".".

Section ButtonHandler.

Variable prisma : PrismaClient.
Variable client : DiscordClient.

Definition button_args (pollId userId : string) : FindPollArgs :=
  mkFindPollArgs pollId (Some (mkOptionsInclude AllVotes false)) (Some userId) false.

Definition update_args (pollId : string) : FindPollArgs :=
  mkFindPollArgs pollId (Some (mkOptionsInclude AllVotes true)) None true.

Definition updatePollMessage (poll : PollPayload) : M World unit :=
  try_catch
    (let* updatedPoll := on_db (poll_findUnique prisma
                                  (update_args (poll_id (poll_row poll)))) in
     match updatedPoll with
     | None => ret tt
     | Some updatedPoll => on_discord (message_edit client updatedPoll)
     end)%js
    (fun error => ret tt).

(** A query with [where: { id: undefined }] is refused by the client. *)
Definition find_for_button (pollId : option string) (userId : string)
  : M World (option PollPayload) :=
  match pollId with
  | Some p => on_db (poll_findUnique prisma (button_args p userId))
  | None => throw PrismaClientValidationError
  end.

(** [x === optionId], where [optionId] is undefined when the custom id
    has fewer than three parts. *)
Definition is_optionId (optionId : option string) (x : string) : bool :=
  match optionId with
  | Some o => String.eqb x o
  | None => false
  end.

(** The insertion of [handleVoteButton]; [true] when the vote was added. *)
Definition button_add (pollId userId optionId : string) (poll : Poll)
    (votes : list Vote) (selectedOption : PollOption) : M World bool :=
  (let* _ := (if negb (allowMultiple poll) && (0 <? length votes)%nat
              then (let* n := on_db (vote_deleteMany prisma pollId userId) in ret tt)
              else ret tt) in
   try_catch
     (let* v := on_db (vote_create prisma (mkVoteData userId pollId optionId)) in
      let* _ := reply client (reply_button_voted (text selectedOption)) true in
      ret true)
     (fun error =>
        let* _ := reply client reply_button_duplicate true in
        ret false))%js.

(** [handleVoteButton]: [customId] is [interaction.customId] and
    [userId] is [interaction.user.id].  Past the lookup of the poll and
    of the option both parts of the custom id are defined. *)
Definition handleVoteButton (customId userId : string) (now : Z) : M World unit :=
  let parts := split underscore customId in
  let pollId := parts !! 1%nat in
  let optionId := parts !! 2%nat in
  try_catch
    (let* poll := find_for_button pollId userId in
     match poll with
     | None => reply client reply_poll_not_found true
     | Some poll =>
         if PollStatus_eqb (status (poll_row poll)) CLOSED
         then reply client reply_button_closed true
         else if expired (poll_row poll) now
         then reply client reply_button_expired true
         else
           let* options := included (poll_options poll) in
           match find (fun opt => is_optionId optionId (option_id (option_row opt)))
                      options with
           | None => reply client reply_button_invalid true
           | Some selectedOption =>
               let* votes := included (poll_votes poll) in
               match find (fun vote => is_optionId optionId (vote_optionId vote))
                          votes with
               | Some existingVote =>
                   let* v := on_db (vote_delete prisma (vote_id existingVote)) in
                   let* _ := reply client
                               (reply_button_removed (text (option_row selectedOption)))
                               true in
                   updatePollMessage poll
               | None =>
                   let* ok := button_add (default "" pollId) userId
                                (option_id (option_row selectedOption))
                                (poll_row poll) votes (option_row selectedOption) in
                   if ok : bool then updatePollMessage poll else ret tt
               end
           end
     end)%js
    (fun error => reply client reply_button_error true).

End ButtonHandler.

(** ** More of the vote engine: [validateVote] and [getVotingStats] *)

Record Validation := mkValidation {
  valid : bool;
  reason : option string
}.

Definition reason_validation_error := "Validation error".

(** The two queries of [getVotingStats] that no other function issues:
    the poll with, per option in ascending position, the number of its
    votes ([_count]), and the distinct voters of a poll. *)
Record OptionCount := mkOptionCount {
  counted_option : PollOption;
  option_count_votes : nat
}.

Record PollCounts := mkPollCounts {
  counts_row : Poll;
  counts_options : list OptionCount;
  counts_votes : nat
}.

Record StatsClient := mkStats {
  poll_findUnique_counts : string -> M DB (option PollCounts);
  vote_findMany_distinct_userId : string -> M DB (list string)
}.

(** Modelled from the spec: the count aggregation of the poll store (the
    Prisma client and schema are missing): the options of the poll in
    ascending position, each with the number of votes that name it, and
    the number of votes of the poll. *)
Definition mem_poll_findUnique_counts (p : string) : M DB (option PollCounts) :=
  fun d =>
    (Normal
       ((fun row =>
           mkPollCounts row
             (map (fun o => mkOptionCount o
                              (length (votes_of_option (option_id o) (votes d))))
                  (sort_by_position
                     (filter (fun o => option_pollId o = p) (pollOptions d))))
             (length (votes_of_poll p (votes d))))
          <$> polls d !! p),
     d).

(** Modelled from the spec: the distinct aggregation of the poll store
    (the Prisma client and schema are missing): the voters of a poll,
    each once. *)
Definition mem_vote_findMany_distinct_userId (p : string) : M DB (list string) :=
  fun d => (Normal (remove_dups (map vote_userId (votes_of_poll p (votes d)))), d).

(** Modelled from the spec: the aggregations of the poll store as a
    client (the module [src/database] is missing). *)
Definition memStats : StatsClient :=
  mkStats mem_poll_findUnique_counts mem_vote_findMany_distinct_userId.

Record OptionStats := mkOptionStats {
  stats_option_id : string;
  stats_option_text : string;
  stats_option_emoji : string;
  stats_option_votes : nat;
  stats_option_percentage : float
}.

Record VotingStats := mkVotingStats {
  stats_pollId : string;
  stats_title : string;
  stats_totalVotes : nat;
  uniqueVoters : nat;
  stats_options : list OptionStats;
  stats_status : PollStatus;
  stats_createdAt : Z;
  stats_expiresAt : option Z;
  stats_allowMultiple : bool;
  stats_isAnonymous : bool
}.

Section VoteServiceReads.

Variable prisma : PrismaClient.
Variable stats : StatsClient.

(** [validateVote]: the checks of [castVote], without the writes. *)
Definition validateVote_body (pollId userId optionId : string) (now : Z)
  : M DB Validation :=
  (let* poll := poll_findUnique prisma (castVote_args pollId userId) in
   match poll with
   | None => ret (mkValidation false (Some msg_poll_not_found))
   | Some poll =>
       if PollStatus_eqb (status (poll_row poll)) CLOSED
       then ret (mkValidation false (Some msg_poll_closed))
       else if expired (poll_row poll) now
       then ret (mkValidation false (Some msg_poll_expired))
       else
         let* options := included (poll_options poll) in
         match find (fun opt => String.eqb (option_id (option_row opt)) optionId) options with
         | None => ret (mkValidation false (Some msg_invalid_option))
         | Some selectedOption =>
             let* votes := included (poll_votes poll) in
             match find (fun vote => String.eqb (vote_optionId vote) optionId) votes with
             | Some existingVote => ret (mkValidation true None)
             | None =>
                 if negb (allowMultiple (poll_row poll)) && (0 <? length votes)%nat
                 then ret (mkValidation true None)
                 else ret (mkValidation true None)
             end
         end
   end)%js.

Definition validateVote (pollId userId optionId : string) (now : Z)
  : DB -> Validation * DB :=
  try_return (validateVote_body pollId userId optionId now)
             (fun error => mkValidation false (Some reason_validation_error)).

Definition getVotingStats_body (pollId : string) : M DB (option VotingStats) :=
  (let* poll := poll_findUnique_counts stats pollId in
   match poll with
   | None => ret None
   | Some poll =>
       let totalVotes := counts_votes poll in
       let* voters := vote_findMany_distinct_userId stats pollId in
       ret (Some (mkVotingStats
                    (poll_id (counts_row poll)) (title (counts_row poll))
                    totalVotes (length voters)
                    (map (fun option =>
                            mkOptionStats (option_id (counted_option option))
                                          (text (counted_option option))
                                          (emoji (counted_option option))
                                          (option_count_votes option)
                                          (percentage_of (option_count_votes option)
                                                         totalVotes))
                         (counts_options poll))
                    (status (counts_row poll)) (createdAt (counts_row poll))
                    (expiresAt (counts_row poll)) (allowMultiple (counts_row poll))
                    (isAnonymous (counts_row poll))))
   end)%js.

Definition getVotingStats (pollId : string) : DB -> option VotingStats * DB :=
  try_return (getVotingStats_body pollId) (fun error => None).

End VoteServiceReads.

(** ** More of the commands: [showStats] and the custom id of a button *)

Definition reply_stats_error := "An error occurred while fetching poll statistics.".

(** [`vote_${poll.id}_${option.id}`], the custom id that [createPoll]
    gives to the button of an option. *)
Definition vote_customId (pollId optionId : string) : string :=
  "vote_" +:+ pollId +:+ "_" +:+ optionId.

Section Stats.

Variable prisma : PrismaClient.
Variable client : DiscordClient.

(** The argument object of the query of [showStats]: as in
    [getPollResults] it reads [poll], the constant that the query
    initializes. *)
Definition showStats_args (pollId : string) (poll : Binding (option PollPayload))
  : M World FindPollArgs :=
  (let* p := read_binding poll in
   let anonymous := match p with
                    | Some p => isAnonymous (poll_row p)
                    | None => false
                    end in
   ret (mkFindPollArgs pollId
          (Some (mkOptionsInclude (if anonymous then NoVotes else SelectUserId) false))
          None true))%js.

(** [showStats]; the reply that carries the embed is recorded with the
    title of the poll as its content. *)
Definition showStats_from (pollId : string) (binding : Binding (option PollPayload))
  : M World unit :=
  try_catch
    (let* args := showStats_args pollId binding in
     let* poll := on_db (poll_findUnique prisma args) in
     match poll with
     | None => reply client reply_poll_not_found true
     | Some poll =>
         let* totalVotes := included (poll_count_votes poll) in
         let* options := included (poll_options poll) in
         let* results := mapM (fun option =>
                                 let* votes := included (option_votes option) in
                                 ret (length votes,
                                      percentage_of (length votes) totalVotes))
                              options in
         reply client (title (poll_row poll)) false
     end)%js
    (fun error => reply client reply_stats_error true).

Definition showStats (pollId : string) : M World unit :=
  showStats_from pollId Uninitialized.

(** [handleButtonInteraction] of the bot: only the custom ids that start
    with [vote_] reach [handleVoteButton]. *)
Definition handleButtonInteraction (customId userId : string) (now : Z) : M World unit :=
  if String.prefix "vote_" customId
  then handleVoteButton prisma client customId userId now
  else ret tt.

End Stats.

(** ** The progress bar of the poll message *)

Definition RangeError : JsError := mkError "RangeError" None.

(** [ToIntegerOrInfinity]: the number truncated toward zero, [None] for
    an infinity, 0 for NaN. *)
Definition ToIntegerOrInfinity (x : float) : option Z :=
  match Prim2SF x with
  | S754_zero _ | S754_nan => Some 0%Z
  | S754_infinity _ => None
  | S754_finite s m e =>
      let a := if (0 <=? e)%Z then (Z.pos m * 2 ^ e)%Z else (Z.pos m / 2 ^ (- e))%Z in
      Some (if s then (- a)%Z else a)
  end.

Fixpoint repeat_string (n : nat) (s : string) : string :=
  match n with
  | O => EmptyString
  | S n' => s +:+ repeat_string n' s
  end.

(** [s.repeat(count)]: a negative or infinite count is a [RangeError]. *)
Definition String_repeat (s : string) (count : float) : Completion string :=
  match ToIntegerOrInfinity count with
  | Some n => if (n <? 0)%Z then Throw RangeError
              else Normal (repeat_string (Z.to_nat n) s)
  | None => Throw RangeError
  end.

Definition FILLED_CELL : string := "â–ˆ".
Definition EMPTY_CELL : string := "â–‘".

Definition createProgressBar (percentage : float) : Completion string :=
  let filled := Math_round (PrimFloat.mul (PrimFloat.div percentage (number_of_Z 100))
                                          (number_of_Z 10)) in
  let empty := PrimFloat.sub (number_of_Z 10) filled in
  match String_repeat FILLED_CELL filled with
  | Throw e => Throw e
  | Normal a =>
      match String_repeat EMPTY_CELL empty with
      | Throw e => Throw e
      | Normal b => Normal (a +:+ b)
      end
  end.

(** ** The system as a state machine

    The operations that reach the store: a vote through the service or
    through the button, the two poll commands, and the execution of a
    closure job by the worker.  The store and the queue are the ones in
    memory; the Discord client is arbitrary. *)

Inductive Operation :=
| CastVote (pollId userId optionId : string) (now : Z)
| VoteButton (customId userId : string) (now : Z)
| ClosePoll (pollId user : string)
| CreatePoll (o : CreateOptions) (guild channel user : string) (now later : Z)
| CloseJob (pollId : string).

Section System.

Variable client : DiscordClient.

Definition run (op : Operation) (w : World) : World :=
  match op with
  | CastVote p u o now =>
      mkWorld (snd (castVote memPrisma p u o now (db w))) (queue w) (discord w)
  | VoteButton c u now => snd (handleVoteButton memPrisma client c u now w)
  | ClosePoll p u => snd (closePoll memPrisma client p u w)
  | CreatePoll o g c u now later =>
      snd (createPoll memPrisma memQueue client o g c u now later w)
  | CloseJob p => snd (pollCloseProcessor memPrisma client p w)
  end.

Definition run_all (ops : list Operation) (w : World) : World :=
  foldl (fun w op => run op w) w ops.

End System.

(** ** Vocabulary of the statements *)

(** [opt] is the option [o] of the poll [p]. *)
Definition is_option_of (d : DB) (p o : string) (opt : PollOption) : Prop :=
  opt ∈ pollOptions d /\ option_pollId opt = p /\ option_id opt = o.

(** The poll [p] takes votes for [o] at the instant [now]: it is there,
    OPEN, not expired, and [o] is one of its options. *)
Definition poll_accepts (d : DB) (p o : string) (now : Z) : Prop :=
  exists row opt, polls d !! p = Some row /\ status row = OPEN
                  /\ expired row now = false /\ is_option_of d p o opt.

(** The uniqueness constraint of the votes: a triple has at most one
    row. *)
Definition unique_triples (vs : list Vote) : Prop :=
  forall p u o, (length (votes_of_triple p u o vs) <= 1)%nat.

(** The options that the user [u] holds on the poll [p], in the order of
    the votes. *)
Definition held_options (d : DB) (p u : string) : list string :=
  map vote_optionId (votes_of_user p u (votes d)).

(** The store after the row [i] was deleted from the votes. *)
Definition delete_vote (i : string) (d : DB) : DB :=
  mkDB (polls d) (pollOptions d) (filter (fun v => vote_id v <> i) (votes d))
       (idSupply d).

(** The vote that the store creates next for a triple. *)
Definition next_vote (d : DB) (p u o : string) : Vote :=
  mkVote (new_id "vote" (idSupply d)) u p o.

(** The store after the add path of [castVote]: the votes of the user on
    the poll are dropped first when [replace] is set. *)
Definition add_vote (replace : bool) (p u o : string) (d : DB) : DB :=
  mkDB (polls d) (pollOptions d)
       ((if replace
         then filter (fun v => ~ (vote_pollId v = p /\ vote_userId v = u)) (votes d)
         else votes d) ++ [next_vote d p u o])
       (S (idSupply d)).

(** [!poll.allowMultiple && poll.votes.length > 0] *)
Definition replaces (row : Poll) (d : DB) (p u : string) : bool :=
  negb (allowMultiple row) && (0 <? length (votes_of_user p u (votes d)))%nat.

(** The store with the status of a poll updated. *)
Definition close_in (p : string) (row : Poll) (d : DB) : DB :=
  mkDB (<[p := set_status CLOSED row]> (polls d)) (pollOptions d) (votes d)
       (idSupply d).

(** A status never goes from CLOSED to OPEN. *)
Definition status_le (a b : PollStatus) : Prop := a = CLOSED -> b = CLOSED.

(** Every poll of [m] is still in [m'] and did not reopen. *)
Definition polls_evolve (m m' : gmap string Poll) : Prop :=
  forall p row, m !! p = Some row ->
    exists row', m' !! p = Some row' /\ status_le (status row) (status row').

(** Running [m] keeps every poll and reopens none; [polls_of] reads the
    table of the polls in the state. *)
Definition keeps {S A} (polls_of : S -> gmap string Poll) (m : M S A) : Prop :=
  forall s, polls_evolve (polls_of s) (polls_of (snd (m s))).

Definition world_polls (w : World) : gmap string Poll := polls (db w).

(** The character [c] occurs in [s]. *)
Fixpoint contains (c : Ascii.ascii) (s : string) : bool :=
  match s with
  | EmptyString => false
  | String x s' => Ascii.eqb x c || contains c s'
  end.

(** Running [m] changes neither the store nor the queue: all it does
    goes to Discord. *)
Definition only_discord {A} (m : M World A) : Prop :=
  forall w, db (snd (m w)) = db w /\ queue (snd (m w)) = queue w.

(** The store and the queue of [w] are [d] and [q]. *)
Definition store_is (w : World) (d : DB) (q : gmap string Job) : Prop :=
  db w = d /\ queue w = q.

(** A store whose update of a poll is rejected with the error [e]. *)
Definition rejecting_update (e : JsError) : PrismaClient :=
  mkPrisma mem_poll_findUnique (fun _ _ => throw e) mem_poll_create
           mem_vote_create mem_vote_delete mem_vote_deleteMany mem_vote_findMany.

(** A store whose insertion is rejected with the error [e]. *)
Definition rejecting (e : JsError) : PrismaClient :=
  mkPrisma mem_poll_findUnique mem_poll_update mem_poll_create
           (fun _ => throw e) mem_vote_delete mem_vote_deleteMany mem_vote_findMany.

(** ** Fixtures, after the unit tests of the repository *)

Definition mockPoll : Poll :=
  mkPoll "poll1" "Test Poll" None "guild1" "channel1" (Some "message1")
         "creator1" false false OPEN None 0.

Definition option1 : PollOption := mkOption "option1" "poll1" "Option 1" "1" 0.
Definition option2 : PollOption := mkOption "option2" "poll1" "Option 2" "2" 1.

Definition mockDB : DB := mkDB {[ "poll1" := mockPoll ]} [option1; option2] [] 0.

Definition vote1 : Vote := mkVote "vote1" "user1" "poll1" "option1".
Definition vote2 : Vote := mkVote "vote2" "user2" "poll1" "option1".
Definition vote3 : Vote := mkVote "vote3" "user3" "poll1" "option2".

(** The poll of the [getPollResults] test: two votes on the first option
    and one on the second. *)
Definition votedDB : DB :=
  mkDB {[ "poll1" := mockPoll ]} [option1; option2] [vote1; vote2; vote3] 0.

Definition closedDB : DB :=
  mkDB {[ "poll1" := set_status CLOSED mockPoll ]} [option1; option2] [vote1] 0.

(** A poll that expired at instant 1000 and that no job has closed. *)
Definition expiredDB : DB :=
  mkDB {[ "poll1" := mkPoll "poll1" "Test Poll" None "guild1" "channel1" None
                            "creator1" false false OPEN (Some 1000) 0 ]}
       [option1; option2] [vote1] 0.

Definition mockWorld : World := mkWorld mockDB ∅ [].

(** A poll of one hour with its closure job pending. *)
Definition scheduledWorld : World :=
  mkWorld mockDB {[ "poll-poll1" := mkJob "close-poll" "poll1" 3600000 ]} [].

(** The poll of the test of multiple votes. *)
Definition multiPoll : Poll :=
  mkPoll "poll2" "Multi Vote Poll" None "guild1" "channel1" None "creator1"
         true false OPEN None 0.

Definition option21 : PollOption := mkOption "option1" "poll2" "Option 1" "1" 0.
Definition option22 : PollOption := mkOption "option2" "poll2" "Option 2" "2" 1.

Definition multiDB : DB := mkDB {[ "poll2" := multiPoll ]} [option21; option22] [] 0.

(** A connection failure of the store. *)
Definition P1001 : JsError := PrismaKnownError "P1001".

(** * Properties *)

Local Open Scope list_scope.

(** ** Lists of rows *)

Lemma find_existing_vote (p u o : string) (vs : list Vote) :
  find (fun vote => String.eqb (vote_optionId vote) o) (votes_of_user p u vs)
  = head (votes_of_triple p u o vs).
Proof.
  unfold votes_of_user, votes_of_triple.
  induction vs as [|v vs IH]; [reflexivity|].
  rewrite !filter_cons.
  destruct (decide (vote_pollId v = p /\ vote_userId v = u)) as [Hu|Hu]; simpl.
  - destruct (String.eqb_spec (vote_optionId v) o) as [Ho|Ho].
    + rewrite decide_True by tauto. reflexivity.
    + rewrite decide_False by tauto. exact IH.
  - rewrite decide_False by tauto. exact IH.
Qed.

Lemma triple_in_votes (p u o : string) (vs : list Vote) (v : Vote) :
  v ∈ votes_of_triple p u o vs ->
  v ∈ vs /\ vote_pollId v = p /\ vote_userId v = u /\ vote_optionId v = o.
Proof.
  unfold votes_of_triple. rewrite list_elem_of_filter. tauto.
Qed.

Lemma triple_of_filter (P : Vote -> Prop) `{!forall v, Decision (P v)}
    (p u o : string) (vs : list Vote) :
  votes_of_triple p u o vs = [] -> votes_of_triple p u o (filter P vs) = [].
Proof.
  unfold votes_of_triple. intros Hnil.
  rewrite list_filter_filter.
  induction vs as [|v vs IH]; [reflexivity|].
  rewrite filter_cons in Hnil. rewrite filter_cons.
  destruct (decide (vote_pollId v = p /\ vote_userId v = u /\ vote_optionId v = o)).
  - discriminate.
  - rewrite decide_False by tauto. auto.
Qed.

Lemma find_by_id (vs : list Vote) (v : Vote) :
  v ∈ vs ->
  exists v', find (fun x => String.eqb (vote_id x) (vote_id v)) vs = Some v'.
Proof.
  induction vs as [|x vs IH]; intros Hin.
  - apply elem_of_nil in Hin. contradiction.
  - simpl. destruct (String.eqb_spec (vote_id x) (vote_id v)) as [E|E].
    + eauto.
    + apply elem_of_cons in Hin as [->|Hin]; [contradiction|auto].
Qed.

Lemma find_selected_option (d : DB) (p o : string) (inc : VotesInclude)
    (opt : PollOption) :
  is_option_of d p o opt ->
  exists sel,
    find (fun x => String.eqb (option_id (option_row x)) o)
         (load_options d p (mkOptionsInclude inc false))
    = Some (attach_votes inc (votes d) sel)
    /\ is_option_of d p o sel.
Proof.
  unfold is_option_of, load_options. simpl.
  generalize (pollOptions d) as l.
  induction l as [|x l IH]; intros (Hin & Hp & Ho).
  - apply elem_of_nil in Hin. contradiction.
  - rewrite filter_cons.
    destruct (decide (option_pollId x = p)) as [Hx|Hx]; simpl.
    + destruct (String.eqb_spec (option_id x) o) as [E|E].
      * exists x. rewrite elem_of_cons. auto.
      * apply elem_of_cons in Hin as [->|Hin]; [contradiction|].
        destruct IH as (sel & Hf & Hs1 & Hs2); [auto|].
        exists sel. rewrite elem_of_cons. auto.
    + apply elem_of_cons in Hin as [->|Hin]; [contradiction|].
      destruct IH as (sel & Hf & Hs1 & Hs2); [auto|].
      exists sel. rewrite elem_of_cons. auto.
Qed.

(** ** The two paths of [castVote] on the store in memory *)

Lemma mem_findUnique_found (d : DB) (args : FindPollArgs) (row : Poll) :
  polls d !! where_id args = Some row ->
  mem_poll_findUnique args d = (Normal (Some (load_poll d args row)), d).
Proof. intros H. unfold mem_poll_findUnique. rewrite H. reflexivity. Qed.

Lemma mem_findUnique_absent (d : DB) (args : FindPollArgs) :
  polls d !! where_id args = None ->
  mem_poll_findUnique args d = (Normal None, d).
Proof. intros H. unfold mem_poll_findUnique. rewrite H. reflexivity. Qed.

Section CastVotePaths.

Context (d : DB) (p u o : string) (now : Z) (row : Poll) (opt : PollOption).
Hypothesis Hpoll : polls d !! p = Some row.
Hypothesis Hopen : status row = OPEN.
Hypothesis Hlive : expired row now = false.
Hypothesis Hopt : is_option_of d p o opt.

(** The user holds the option: the first row of the triple is deleted. *)
Lemma castVote_remove_path (v : Vote) (rest : list Vote) :
  votes_of_triple p u o (votes d) = v :: rest ->
  exists sel, is_option_of d p o sel /\
    castVote memPrisma p u o now d
    = (mkOutcome true (msg_removed (text sel)) removed, delete_vote (vote_id v) d).
Proof.
  intros Hheld.
  destruct (find_selected_option d p o NoVotes opt Hopt) as (sel & Hsel & Hsel').
  exists sel. split; [exact Hsel'|].
  assert (Hin : v ∈ votes d).
  { apply (triple_in_votes p u o). rewrite Hheld. apply elem_of_cons. auto. }
  destruct (find_by_id _ _ Hin) as (v' & Hv').
  unfold castVote, try_return, castVote_body, bind, castVote_args.
  cbn [poll_findUnique memPrisma].
  rewrite (mem_findUnique_found d (mkFindPollArgs p _ _ _) row Hpoll). unfold load_poll.
  cbn [poll_row]. rewrite Hopen, Hlive. cbn [PollStatus_eqb].
  cbn [poll_options include_options where_id fmap option_fmap option_map included ret].
  rewrite Hsel.
  cbn [poll_votes include_votes_where_userId fmap option_fmap option_map included ret].
  rewrite find_existing_vote, Hheld. cbn [head].
  cbn [vote_delete memPrisma]. unfold mem_vote_delete. rewrite Hv'.
  reflexivity.
Qed.

(** The user does not hold the option: the vote is inserted, after the
    other votes of the user were dropped under single select. *)
Lemma castVote_add_path :
  votes_of_triple p u o (votes d) = [] ->
  exists sel, is_option_of d p o sel /\
    castVote memPrisma p u o now d
    = (mkOutcome true (msg_voted (text sel)) added,
       add_vote (replaces row d p u) p u o d).
Proof.
  intros Hfree.
  destruct (find_selected_option d p o NoVotes opt Hopt) as (sel & Hsel & Hsel').
  exists sel. split; [exact Hsel'|].
  unfold castVote, try_return, castVote_body, bind, castVote_args.
  cbn [poll_findUnique memPrisma].
  rewrite (mem_findUnique_found d (mkFindPollArgs p _ _ _) row Hpoll). unfold load_poll.
  cbn [poll_row]. rewrite Hopen, Hlive. cbn [PollStatus_eqb].
  cbn [poll_options include_options where_id fmap option_fmap option_map included ret].
  rewrite Hsel.
  cbn [poll_votes include_votes_where_userId fmap option_fmap option_map included ret].
  rewrite find_existing_vote, Hfree. cbn [head].
  unfold castVote_add, bind, try_catch, replaces, add_vote.
  cbn [vote_deleteMany vote_create memPrisma].
  destruct (negb (allowMultiple row) && (0 <? length (votes_of_user p u (votes d)))%nat).
  - unfold mem_vote_deleteMany, mem_vote_create, ret, triple_taken.
    cbn [votes data_pollId data_userId data_optionId polls pollOptions idSupply].
    rewrite (triple_of_filter _ p u o (votes d) Hfree).
    rewrite bool_decide_eq_false_2 by tauto. reflexivity.
  - unfold mem_vote_create, ret, triple_taken.
    cbn [votes data_pollId data_userId data_optionId polls pollOptions idSupply].
    rewrite Hfree. rewrite bool_decide_eq_false_2 by tauto. reflexivity.
Qed.

End CastVotePaths.

Lemma castVote_refused (d : DB) (p u o : string) (now : Z) (row : Poll) :
  polls d !! p = Some row ->
  (status row = CLOSED ->
   castVote memPrisma p u o now d = (mkOutcome false msg_poll_closed added, d))
  /\ (status row = OPEN -> expired row now = true ->
      castVote memPrisma p u o now d = (mkOutcome false msg_poll_expired added, d)).
Proof.
  intros Hpoll.
  split; [intros Hst|intros Hst Hexp];
    unfold castVote, try_return, castVote_body, bind, castVote_args;
    cbn [poll_findUnique memPrisma];
    rewrite (mem_findUnique_found d (mkFindPollArgs p _ _ _) row Hpoll);
    unfold load_poll; cbn [poll_row]; rewrite Hst; cbn [PollStatus_eqb];
    [|rewrite Hexp]; reflexivity.
Qed.

(** C4.  On a poll whose status is CLOSED, [castVote] fails with "Poll is
    closed" and leaves the store as it was; on a poll that is still OPEN
    and whose [expiresAt] is set and strictly before the current instant,
    it fails with "Poll has expired" and leaves the store as it was,
    whether or not a closure job has run. *)
Theorem castVote_closed_or_expired (d : DB) (p u o : string) (now : Z) (row : Poll) :
  polls d !! p = Some row ->
  (status row = CLOSED ->
   castVote memPrisma p u o now d = (mkOutcome false msg_poll_closed added, d))
  /\ (status row = OPEN ->
      forall t, expiresAt row = Some t -> (t < now)%Z ->
      castVote memPrisma p u o now d = (mkOutcome false msg_poll_expired added, d)).
Proof.
  intros Hpoll.
  destruct (castVote_refused d p u o now row Hpoll) as [Hclosed Hexpired].
  split; [exact Hclosed|].
  intros Hopen t Ht Hlt. apply Hexpired; [exact Hopen|].
  unfold expired. rewrite Ht. apply Z.ltb_lt. exact Hlt.
Qed.

Lemma castVote_closed_or_expired_witness :
  castVote memPrisma "poll1" "user1" "option1" 2000 closedDB
  = (mkOutcome false msg_poll_closed added, closedDB)
  /\ castVote memPrisma "poll1" "user2" "option2" 2000 expiredDB
     = (mkOutcome false msg_poll_expired added, expiredDB).
Proof.
  split.
  - apply (castVote_closed_or_expired closedDB "poll1" "user1" "option1" 2000
             (set_status CLOSED mockPoll)); reflexivity.
  - eapply (castVote_closed_or_expired expiredDB "poll1" "user2" "option2" 2000);
      [reflexivity | reflexivity | reflexivity | reflexivity].
Defined.

(** ** Votes after a deletion and after an insertion *)

Lemma votes_of_user_dropped (p u : string) (vs : list Vote) :
  votes_of_user p u
    (filter (fun v => ~ (vote_pollId v = p /\ vote_userId v = u)) vs) = [].
Proof.
  unfold votes_of_user. rewrite list_filter_filter.
  induction vs as [|v vs IH]; [reflexivity|].
  rewrite filter_cons, decide_False by tauto. exact IH.
Qed.

Lemma triple_after_delete (p u o : string) (vs : list Vote) (v : Vote) :
  votes_of_triple p u o vs = [v] ->
  votes_of_triple p u o (filter (fun x => vote_id x <> vote_id v) vs) = [].
Proof.
  intros Hone. apply elem_of_nil_inv. intros x Hx.
  unfold votes_of_triple in Hx.
  apply list_elem_of_filter in Hx as [Htriple Hx].
  apply list_elem_of_filter in Hx as [Hid Hx].
  assert (Hin : x ∈ votes_of_triple p u o vs).
  { unfold votes_of_triple. apply list_elem_of_filter. auto. }
  rewrite Hone in Hin. apply list_elem_of_singleton in Hin. subst x.
  apply Hid. reflexivity.
Qed.

Lemma triple_after_add (b : bool) (p u o : string) (d : DB) :
  votes_of_triple p u o (votes d) = [] ->
  votes_of_triple p u o (votes (add_vote b p u o d)) = [next_vote d p u o].
Proof.
  intros Hfree. unfold add_vote. cbn [votes].
  unfold votes_of_triple. rewrite filter_app.
  rewrite (filter_cons _ (next_vote d p u o)), decide_True by (cbn; tauto).
  rewrite filter_nil.
  destruct b.
  - pose proof (triple_of_filter
                  (fun v => ~ (vote_pollId v = p /\ vote_userId v = u))
                  p u o (votes d) Hfree) as Hnone.
    unfold votes_of_triple in Hnone. rewrite Hnone. reflexivity.
  - unfold votes_of_triple in Hfree. rewrite Hfree. reflexivity.
Qed.

Lemma single_select_add (row : Poll) (p u o : string) (d : DB) :
  allowMultiple row = false ->
  votes_of_user p u (votes (add_vote (replaces row d p u) p u o d))
  = [next_vote d p u o].
Proof.
  intros Hsingle. unfold add_vote, replaces. rewrite Hsingle. cbn [negb andb votes].
  unfold votes_of_user at 1. rewrite filter_app.
  rewrite (filter_cons _ (next_vote d p u o)), decide_True by (cbn; tauto).
  rewrite filter_nil.
  destruct (0 <? length (votes_of_user p u (votes d)))%nat eqn:Hlen.
  - fold (votes_of_user p u
            (filter (fun v => ~ (vote_pollId v = p /\ vote_userId v = u)) (votes d))).
    rewrite votes_of_user_dropped. reflexivity.
  - apply Nat.ltb_ge in Hlen.
    fold (votes_of_user p u (votes d)).
    destruct (votes_of_user p u (votes d)); [reflexivity|].
    cbn in Hlen. lia.
Qed.

Lemma not_held_iff (p u o : string) (vs : list Vote) :
  votes_of_triple p u o vs = [] <-> o ∉ map vote_optionId (votes_of_user p u vs).
Proof.
  unfold votes_of_triple, votes_of_user.
  induction vs as [|v vs IH].
  - split; [intros _; apply not_elem_of_nil|reflexivity].
  - rewrite !filter_cons.
    destruct (decide (vote_pollId v = p /\ vote_userId v = u)) as [Hu|Hu].
    + cbn [map]. rewrite not_elem_of_cons.
      destruct (decide (vote_optionId v = o)) as [Ho|Ho].
      * rewrite decide_True by tauto. split; [discriminate|]. intros [Hne _].
        exfalso. apply Hne. symmetry. exact Ho.
      * rewrite decide_False by tauto. rewrite IH. split; [|tauto].
        intros Hn. split; [congruence|exact Hn].
    + rewrite decide_False by tauto. exact IH.
Qed.

(** ** Single select holds at most one vote per user

    The states in which a user holds two options of a single-select poll
    are not produced by [castVote]: it keeps the bound of one vote per
    user and poll. *)

Lemma castVote_store_cases (d : DB) (p u o : string) (now : Z) :
  let d' := snd (castVote memPrisma p u o now d) in
  d' = d
  \/ (exists i, d' = delete_vote i d)
  \/ (exists row, polls d !! p = Some row
                  /\ d' = add_vote (replaces row d p u) p u o d).
Proof.
  cbv zeta.
  destruct (polls d !! p) as [row|] eqn:Hpoll.
  2:{ left. unfold castVote, try_return, castVote_body, bind, castVote_args.
      cbn [poll_findUnique memPrisma].
      rewrite (mem_findUnique_absent d (mkFindPollArgs p _ _ _) Hpoll). reflexivity. }
  destruct (status row) eqn:Hst.
  2:{ left. destruct (castVote_refused d p u o now row Hpoll) as [E _].
      rewrite (E Hst). reflexivity. }
  destruct (expired row now) eqn:Hexp.
  { left. destruct (castVote_refused d p u o now row Hpoll) as [_ E].
    rewrite (E Hst Hexp). reflexivity. }
  destruct (find (fun x => String.eqb (option_id (option_row x)) o)
                 (load_options d p (mkOptionsInclude NoVotes false)))
    as [sel|] eqn:Hsel.
  2:{ left. unfold castVote, try_return, castVote_body, bind, castVote_args.
      cbn [poll_findUnique memPrisma].
      rewrite (mem_findUnique_found d (mkFindPollArgs p _ _ _) row Hpoll).
      unfold load_poll. cbn [poll_row]. rewrite Hst, Hexp. cbn [PollStatus_eqb].
      cbn [poll_options include_options where_id fmap option_fmap option_map included ret].
      rewrite Hsel. reflexivity. }
  assert (Hopt : is_option_of d p o (option_row sel)).
  { apply find_some in Hsel as [Hin Heq].
    unfold load_options in Hin. cbn [orderBy_position_asc include_option_votes] in Hin.
    apply list_elem_of_In, list_elem_of_fmap in Hin as (x & -> & Hx).
    apply list_elem_of_filter in Hx as [Hxp Hx].
    cbn [attach_votes option_row] in *.
    apply String.eqb_eq in Heq. repeat split; assumption. }
  destruct (votes_of_triple p u o (votes d)) as [|v rest] eqn:Hheld.
  - right. right. exists row. split; [reflexivity|].
    destruct (castVote_add_path d p u o now row _ Hpoll Hst Hexp Hopt Hheld)
      as (sel' & _ & E).
    rewrite E. reflexivity.
  - right. left. exists (vote_id v).
    destruct (castVote_remove_path d p u o now row _ Hpoll Hst Hexp Hopt v rest Hheld)
      as (sel' & _ & E).
    rewrite E. reflexivity.
Qed.

Lemma votes_of_user_filter_length (P : Vote -> Prop) `{!forall v, Decision (P v)}
    (q w : string) (vs : list Vote) :
  (length (votes_of_user q w (filter P vs)) <= length (votes_of_user q w vs))%nat.
Proof.
  unfold votes_of_user.
  induction vs as [|v vs IH]; [reflexivity|].
  rewrite (filter_cons P).
  destruct (decide (P v)); rewrite !filter_cons;
    destruct (decide (vote_pollId v = q /\ vote_userId v = w)); cbn [length]; lia.
Qed.

(** X4.  [castVote] keeps the bound of single select: when a user holds
    at most one vote on a poll with [allowMultiple = false], the user
    still holds at most one after any cast, by anyone, on any poll. *)
Lemma castVote_keeps_single_select (d : DB) (p u o : string) (now : Z)
    (q w : string) (row : Poll) :
  polls d !! q = Some row -> allowMultiple row = false ->
  (length (votes_of_user q w (votes d)) <= 1)%nat ->
  (length (votes_of_user q w (votes (snd (castVote memPrisma p u o now d)))) <= 1)%nat.
Proof.
  intros Hrow Hsingle Hone.
  destruct (castVote_store_cases d p u o now) as [E|[(i & E)|(row' & Hrow' & E)]];
    rewrite E; clear E.
  - exact Hone.
  - unfold delete_vote. cbn [votes].
    etransitivity; [apply votes_of_user_filter_length|exact Hone].
  - destruct (decide (p = q /\ u = w)) as [[-> ->]|Hother].
    + rewrite Hrow in Hrow'. injection Hrow' as <-.
      rewrite (single_select_add row q w o d Hsingle). reflexivity.
    + unfold add_vote. cbn [votes]. unfold votes_of_user at 1.
      rewrite filter_app, (filter_cons _ (next_vote d p u o)).
      rewrite decide_False by (cbn; intros [? ?]; apply Hother; split; congruence).
      rewrite filter_nil, app_nil_r.
      destruct (replaces row' d p u).
      * etransitivity; [apply votes_of_user_filter_length|exact Hone].
      * exact Hone.
Qed.

Lemma at_most_one_not_both (d : DB) (p u o1 o2 : string) :
  o1 <> o2 -> (length (votes_of_user p u (votes d)) <= 1)%nat ->
  ~ (o1 ∈ held_options d p u /\ o2 ∈ held_options d p u).
Proof.
  unfold held_options. intros Hne Hone [H1 H2].
  destruct (votes_of_user p u (votes d)) as [|v [|v' vs]].
  - apply elem_of_nil in H1. exact H1.
  - cbn in H1, H2. apply list_elem_of_singleton in H1, H2. congruence.
  - cbn in Hone. lia.
Qed.

(** ** Toggle and replace *)

(** C1.  On an open, unexpired poll and for one of its options: when the
    user already holds a vote for exactly this option, [castVote] deletes
    that row, and only rows of that identity, whatever [allowMultiple] is
    (so the other votes of the user stay, the replace logic does not run),
    and answers [removed]; no vote for the triple is left when the triple
    had one row.  Hence casting twice from a state without a vote for the
    triple answers [added], then [removed], and leaves no vote for it. *)
Theorem castVote_toggle (d : DB) (p u o : string) (now now' : Z)
    (row : Poll) (opt : PollOption) :
  polls d !! p = Some row -> status row = OPEN ->
  expired row now = false -> expired row now' = false ->
  is_option_of d p o opt ->
  (forall v rest, votes_of_triple p u o (votes d) = v :: rest ->
     (exists sel, is_option_of d p o sel /\
        castVote memPrisma p u o now d
        = (mkOutcome true (msg_removed (text sel)) removed, delete_vote (vote_id v) d))
     /\ (rest = [] -> votes_of_triple p u o (votes (delete_vote (vote_id v) d)) = []))
  /\ (votes_of_triple p u o (votes d) = [] ->
      let r1 := castVote memPrisma p u o now d in
      let r2 := castVote memPrisma p u o now' (snd r1) in
      (success (fst r1) = true /\ action (fst r1) = added)
      /\ (success (fst r2) = true /\ action (fst r2) = removed)
      /\ votes_of_triple p u o (votes (snd r2)) = []).
Proof.
  intros Hpoll Hopen Hlive Hlive' Hopt. split.
  - intros v rest Hheld. split.
    + exact (castVote_remove_path d p u o now row opt Hpoll Hopen Hlive Hopt v rest Hheld).
    + intros ->. unfold delete_vote. cbn [votes]. apply triple_after_delete. exact Hheld.
  - intros Hfree.
    destruct (castVote_add_path d p u o now row opt Hpoll Hopen Hlive Hopt Hfree)
      as (sel & _ & E1).
    cbv zeta. rewrite E1. cbn [fst snd success action].
    pose proof (triple_after_add (replaces row d p u) p u o d Hfree) as Hone.
    assert (Hopt1 : is_option_of (add_vote (replaces row d p u) p u o d) p o opt)
      by exact Hopt.
    destruct (castVote_remove_path (add_vote (replaces row d p u) p u o d) p u o now'
                row opt Hpoll Hopen Hlive' Hopt1 _ _ Hone)
      as (sel' & _ & E2).
    rewrite E2. cbn [fst snd success action].
    repeat split.
    unfold delete_vote. cbn [votes]. apply triple_after_delete. exact Hone.
Qed.

Lemma castVote_toggle_witness :
  let r1 := castVote memPrisma "poll1" "user1" "option1" 10 mockDB in
  let r2 := castVote memPrisma "poll1" "user1" "option1" 20 (snd r1) in
  (success (fst r1) = true /\ action (fst r1) = added)
  /\ (success (fst r2) = true /\ action (fst r2) = removed)
  /\ votes_of_triple "poll1" "user1" "option1" (votes (snd r2)) = [].
Proof.
  apply (castVote_toggle mockDB "poll1" "user1" "option1" 10 20 mockPoll option1).
  - reflexivity.
  - reflexivity.
  - reflexivity.
  - reflexivity.
  - repeat split. apply list_elem_of_here.
  - reflexivity.
Defined.

(** C2.  On an open, unexpired poll with [allowMultiple = false], for two
    distinct options of the poll: after the user casts for the first and
    then for the second, the second cast answers [added] and the votes of
    the user on the poll, as [getUserVotes] lists them, are exactly the
    second option.  The user must not hold both options at the start:
    there the two casts retract both.  Single select never produces such
    a state ([castVote_keeps_single_select], [at_most_one_not_both]). *)
Theorem castVote_single_select_replace (d : DB) (p u o1 o2 : string) (now now' : Z)
    (row : Poll) (opt1 opt2 : PollOption) :
  polls d !! p = Some row -> status row = OPEN -> allowMultiple row = false ->
  expired row now = false -> expired row now' = false ->
  is_option_of d p o1 opt1 -> is_option_of d p o2 opt2 -> o1 <> o2 ->
  ~ (o1 ∈ held_options d p u /\ o2 ∈ held_options d p u) ->
  let r1 := castVote memPrisma p u o1 now d in
  let r2 := castVote memPrisma p u o2 now' (snd r1) in
  (success (fst r2) = true /\ action (fst r2) = added)
  /\ getUserVotes memPrisma p u (snd r2) = ([o2], snd r2).
Proof.
  intros Hpoll Hopen Hsingle Hlive Hlive' Hopt1 Hopt2 Hne Hboth. cbv zeta.
  assert (Hsecond : forall d1, polls d1 !! p = Some row -> is_option_of d1 p o2 opt2 ->
            votes_of_triple p u o2 (votes d1) = [] ->
            let r2 := castVote memPrisma p u o2 now' d1 in
            (success (fst r2) = true /\ action (fst r2) = added)
            /\ getUserVotes memPrisma p u (snd r2) = ([o2], snd r2)).
  { intros d1 Hpoll1 Hopt21 Hfree2.
    destruct (castVote_add_path d1 p u o2 now' row opt2 Hpoll1 Hopen Hlive' Hopt21 Hfree2)
      as (sel & _ & E2).
    cbv zeta. rewrite E2. cbn [fst snd success action]. split; [auto|].
    unfold getUserVotes, try_return, bind, ret. cbn [vote_findMany memPrisma].
    unfold mem_vote_findMany. rewrite (single_select_add row p u o2 d1 Hsingle).
    reflexivity. }
  destruct (votes_of_triple p u o1 (votes d)) as [|v rest] eqn:Hheld1.
  - destruct (castVote_add_path d p u o1 now row opt1 Hpoll Hopen Hlive Hopt1 Hheld1)
      as (sel & _ & E1).
    rewrite E1. cbn [snd]. apply Hsecond; [exact Hpoll|exact Hopt2|].
    apply not_held_iff. rewrite (single_select_add row p u o1 d Hsingle).
    cbn. rewrite list_elem_of_singleton. congruence.
  - destruct (castVote_remove_path d p u o1 now row opt1 Hpoll Hopen Hlive Hopt1 v rest Hheld1)
      as (sel & _ & E1).
    rewrite E1. cbn [snd]. apply Hsecond; [exact Hpoll|exact Hopt2|].
    unfold delete_vote. cbn [votes]. apply triple_of_filter.
    apply not_held_iff. intros Hin2. apply Hboth. split; [|exact Hin2].
    destruct (decide (o1 ∈ held_options d p u)) as [Hin1|Hout1]; [exact Hin1|].
    apply not_held_iff in Hout1. rewrite Hout1 in Hheld1. discriminate.
Qed.

Lemma castVote_single_select_replace_witness :
  let r1 := castVote memPrisma "poll1" "user1" "option1" 10 mockDB in
  let r2 := castVote memPrisma "poll1" "user1" "option2" 20 (snd r1) in
  (success (fst r2) = true /\ action (fst r2) = added)
  /\ getUserVotes memPrisma "poll1" "user1" (snd r2) = (["option2"], snd r2).
Proof.
  apply (castVote_single_select_replace mockDB "poll1" "user1" "option1" "option2"
           10 20 mockPoll option1 option2).
  - reflexivity.
  - reflexivity.
  - reflexivity.
  - reflexivity.
  - reflexivity.
  - repeat split. apply list_elem_of_here.
  - repeat split. apply list_elem_of_further, list_elem_of_here.
  - discriminate.
  - intros [H _]. cbn in H. apply elem_of_nil in H. exact H.
Defined.

(** ** Results *)

(** C10.  For every client, poll id and store, [getPollResults] returns
    null and leaves the store untouched: the argument object of its query
    reads [poll] while [poll] is still being initialized, which raises a
    [ReferenceError] before the client is called, and the handler of the
    function turns the exception into null. *)
Theorem getPollResults_always_null (prisma : PrismaClient) (pollId : string) (d : DB) :
  getPollResults_body prisma pollId d = (Throw ReferenceError, d)
  /\ getPollResults prisma pollId d = (None, d).
Proof. split; reflexivity. Qed.

(** C9, at the poll of the unit test of [getPollResults]: the poll exists,
    with two votes on its first option and one on its second, and the
    function returns null where the test expects the tally. *)
Theorem getPollResults_of_existing_poll :
  polls votedDB !! "poll1" = Some mockPoll
  /\ length (votes_of_poll "poll1" (votes votedDB)) = 3%nat
  /\ getPollResults memPrisma "poll1" votedDB = (None, votedDB).
Proof. repeat split. Qed.

(** What the rest of the [try] block computes once the query is built,
    here with [poll] read as null: the tally that the unit test expects. *)
Lemma getPollResults_from_tally :
  getPollResults_from memPrisma "poll1" (Initialized None) votedDB
  = (Normal (Some (mkPollResults "poll1" "Test Poll" 3
                     [mkVoteResult "option1" "Option 1" 2 67%float
                                   (Some ["user1"; "user2"]);
                      mkVoteResult "option2" "Option 2" 1 33%float
                                   (Some ["user3"])]
                     false OPEN)),
     votedDB).
Proof. vm_compute. reflexivity. Qed.

(** ** A rejected insertion *)

Section RejectedInsert.

Context (e : JsError) (d : DB) (p u o : string) (now : Z)
        (row : Poll) (opt : PollOption).
Hypothesis Hpoll : polls d !! p = Some row.
Hypothesis Hopen : status row = OPEN.
Hypothesis Hlive : expired row now = false.
Hypothesis Hopt : is_option_of d p o opt.
Hypothesis Hfree : votes_of_triple p u o (votes d) = [].

(** In [castVote] only the code [P2002] is answered as a duplicate;
    every other rejection reaches the handler of the function. *)
Lemma castVote_rejected_insert :
  fst (castVote (rejecting e) p u o now d)
  = mkOutcome false
      (if bool_decide (err_code e = Some "P2002")
       then msg_already_voted else msg_vote_error)
      added.
Proof.
  destruct (find_selected_option d p o NoVotes opt Hopt) as (sel & Hsel & Hsel').
  unfold castVote, try_return, castVote_body, bind, castVote_args.
  cbn [poll_findUnique rejecting].
  rewrite (mem_findUnique_found d (mkFindPollArgs p _ _ _) row Hpoll). unfold load_poll.
  cbn [poll_row]. rewrite Hopen, Hlive. cbn [PollStatus_eqb].
  cbn [poll_options include_options where_id fmap option_fmap option_map included ret].
  rewrite Hsel.
  cbn [poll_votes include_votes_where_userId fmap option_fmap option_map included ret].
  rewrite find_existing_vote, Hfree. cbn [head].
  unfold castVote_add, bind, try_catch.
  cbn [vote_deleteMany vote_create rejecting].
  destruct (negb (allowMultiple row) && (0 <? length (votes_of_user p u (votes d)))%nat);
    unfold mem_vote_deleteMany, ret, throw;
    destruct (bool_decide (err_code e = Some "P2002")); reflexivity.
Qed.

Lemma castVote_duplicate_iff :
  message (fst (castVote (rejecting e) p u o now d)) = msg_already_voted
  <-> err_code e = Some "P2002".
Proof.
  rewrite castVote_rejected_insert. cbn [message].
  destruct (bool_decide_reflect (err_code e = Some "P2002")) as [E|E].
  - tauto.
  - split; [discriminate|contradiction].
Qed.

End RejectedInsert.

(** The button handler answers every rejected insertion as a duplicate. *)
Lemma handleVoteButton_rejected_insert (e : JsError) :
  discord (snd (handleVoteButton (rejecting e) okDiscord "vote_poll1_option1" "user1"
                                 10 mockWorld))
  = [Reply reply_button_duplicate true].
Proof. vm_compute. reflexivity. Qed.

(** C5, at a store that rejects the insertion because its connection is
    lost (code [P1001], no uniqueness violation): [castVote] reports the
    failure of the operation, and [handleVoteButton], which the bot runs
    for every vote, reports a duplicate vote. *)
Theorem rejected_insert_reported_as_duplicate :
  err_code P1001 <> Some "P2002"
  /\ fst (castVote (rejecting P1001) "poll1" "user1" "option1" 10 mockDB)
     = mkOutcome false msg_vote_error added
  /\ discord (snd (handleVoteButton (rejecting P1001) okDiscord "vote_poll1_option1"
                                    "user1" 10 mockWorld))
     = [Reply reply_button_duplicate true].
Proof.
  split; [discriminate|]. split.
  - vm_compute. reflexivity.
  - apply handleVoteButton_rejected_insert.
Qed.

(** ** Closing a poll *)

Lemma mem_update_found (d : DB) (p : string) (upd : PollUpdateData) (row : Poll) :
  polls d !! p = Some row ->
  mem_poll_update p upd d
  = (Normal (apply_update upd row),
     mkDB (<[p := apply_update upd row]> (polls d)) (pollOptions d) (votes d)
          (idSupply d)).
Proof. intros H. unfold mem_poll_update. rewrite H. reflexivity. Qed.

(** C3, as the code has it.  [closePoll] answers "Poll not found." when
    the poll is absent, "Only the poll creator can close this poll." when
    the requester is not the creator, "This poll is already closed." when
    the creator closes a CLOSED poll, and changes nothing in these three
    cases; otherwise it sets the status to CLOSED and confirms.  In every
    case the queue is left as it was: a pending closure job stays. *)
Theorem closePoll_outcomes (pollId user : string) (w : World) :
  let w' := snd (closePoll memPrisma okDiscord pollId user w) in
  queue w' = queue w
  /\ (polls (db w) !! pollId = None ->
      db w' = db w /\ discord w' = discord w ++ [Reply reply_poll_not_found true])
  /\ (forall row, polls (db w) !! pollId = Some row ->
      (creatorId row <> user ->
       db w' = db w /\ discord w' = discord w ++ [Reply reply_not_creator true])
      /\ (creatorId row = user -> status row = CLOSED ->
          db w' = db w /\ discord w' = discord w ++ [Reply reply_already_closed true])
      /\ (creatorId row = user -> status row = OPEN ->
          db w' = close_in pollId row (db w)
          /\ discord w' = discord w ++ [Reply (reply_closed (title row)) false])).
Proof.
  cbv zeta. unfold closePoll, try_catch, bind, reply, closePoll_args, on_db, on_discord.
  cbn [poll_findUnique poll_update memPrisma interaction_reply okDiscord].
  destruct (polls (db w) !! pollId) as [row|] eqn:Hpoll.
  - rewrite (mem_findUnique_found (db w) (mkFindPollArgs pollId _ _ _) row Hpoll).
    unfold load_poll. cbn [poll_row db queue discord].
    destruct (String.eqb_spec (creatorId row) user) as [Hc|Hc]; cbn [negb].
    + destruct (status row) eqn:Hst; cbn [PollStatus_eqb].
      * rewrite (mem_update_found (db w) pollId _ row Hpoll).
        cbn [db queue discord snd ret].
        split; [reflexivity|]. split; [discriminate|].
        intros row' E. injection E as <-.
        split; [contradiction|]. split; [rewrite Hst; discriminate|].
        intros _ _. split; reflexivity.
      * cbn [db queue discord snd ret].
        split; [reflexivity|]. split; [discriminate|].
        intros row' E. injection E as <-.
        split; [contradiction|]. split; [|rewrite Hst; discriminate].
        intros _ _. split; reflexivity.
    + cbn [db queue discord snd ret].
      split; [reflexivity|]. split; [discriminate|].
      intros row' E. injection E as <-.
      split; [intros _; split; reflexivity|]. split; contradiction.
  - rewrite (mem_findUnique_absent (db w) (mkFindPollArgs pollId _ _ _) Hpoll).
    cbn [db queue discord snd ret].
    split; [reflexivity|]. split; [intros _; split; reflexivity|].
    intros row' E. discriminate.
Qed.

Lemma closePoll_outcomes_witness :
  let w' := snd (closePoll memPrisma okDiscord "poll1" "creator1" scheduledWorld) in
  polls (db scheduledWorld) !! "poll1" = Some mockPoll
  /\ db w' = close_in "poll1" mockPoll (db scheduledWorld)
  /\ discord w' = [Reply (reply_closed "Test Poll") false]
  /\ queue w' = queue scheduledWorld.
Proof.
  cbv zeta.
  destruct (closePoll_outcomes "poll1" "creator1" scheduledWorld) as (Hq & _ & Hrow).
  destruct (Hrow mockPoll eq_refl) as (_ & _ & Hopen).
  destruct (Hopen eq_refl eq_refl) as (Hdb & Hreply).
  split; [reflexivity|]. split; [exact Hdb|]. split; [exact Hreply|exact Hq].
Defined.

(** C3, as stated, at a poll of one hour that its creator closes early:
    the poll is CLOSED and its closure job is still pending. *)
Lemma closePoll_leaves_job_pending :
  let w' := snd (closePoll memPrisma okDiscord "poll1" "creator1" scheduledWorld) in
  status <$> polls (db w') !! "poll1" = Some CLOSED
  /\ ~ (queue w' !! jobId_of "poll1" = None).
Proof. cbv zeta. split; [reflexivity|]. vm_compute. discriminate. Qed.

(** [removePollCloseJob] does cancel a pending job; no command calls it. *)
Lemma removePollCloseJob_cancels (pollId : string) (w : World) :
  exists w', removePollCloseJob memQueue pollId w = (Normal tt, w')
             /\ queue w' !! jobId_of pollId = None
             /\ db w' = db w.
Proof.
  unfold removePollCloseJob, bind, on_queue.
  cbn [queue_getJob job_remove memQueue]. unfold mem_queue_getJob, mem_job_remove, ret.
  destruct (queue w !! jobId_of pollId) eqn:Hjob.
  - eexists. split; [reflexivity|]. cbn [queue db]. split; [apply lookup_delete_eq|reflexivity].
  - eexists. split; [reflexivity|]. cbn [queue db]. split; [exact Hjob|reflexivity].
Qed.

(** ** The scheduled closure *)

Lemma pollCloseProcessor_noop (client : DiscordClient) (p : string) (w : World) :
  (polls (db w) !! p = None
   \/ exists row, polls (db w) !! p = Some row /\ status row = CLOSED) ->
  pollCloseProcessor memPrisma client p w = (Normal tt, w).
Proof.
  destruct w as [d q l]. cbn [db].
  unfold pollCloseProcessor, try_catch, bind, worker_args, on_db.
  cbn [poll_findUnique memPrisma db queue discord].
  intros [Hnone|(row & Hpoll & Hst)].
  - rewrite (mem_findUnique_absent d (mkFindPollArgs p _ _ _) Hnone). reflexivity.
  - rewrite (mem_findUnique_found d (mkFindPollArgs p _ _ _) row Hpoll).
    unfold load_poll. cbn [poll_row]. rewrite Hst. reflexivity.
Qed.

Lemma pollCloseProcessor_closes (client : DiscordClient) (p : string) (w : World)
    (row : Poll) :
  polls (db w) !! p = Some row -> status row = OPEN ->
  exists l, pollCloseProcessor memPrisma client p w
            = (Normal tt, mkWorld (close_in p row (db w)) (queue w) l).
Proof.
  intros Hpoll Hst.
  unfold pollCloseProcessor, try_catch, bind, worker_args, on_db, on_discord.
  cbn [poll_findUnique poll_update memPrisma].
  rewrite (mem_findUnique_found (db w) (mkFindPollArgs p _ _ _) row Hpoll).
  unfold load_poll. cbn [poll_row db queue discord]. rewrite Hst. cbn [PollStatus_eqb].
  rewrite (mem_update_found (db w) p _ row Hpoll). cbn [db queue discord apply_update].
  destruct (has_message row).
  - match goal with
    | |- context [finalize_message client ?x ?y] =>
        destruct (finalize_message client x y) as [[[]|err] l']
    end; eexists; reflexivity.
  - eexists; reflexivity.
Qed.

(** C6.  The processor of the closure job, for every Discord client and
    every state: it completes without an exception; it changes nothing
    when the poll is not found or is CLOSED; on an OPEN poll it sets the
    status to CLOSED, whoever created the poll (it takes no requester),
    and leaves the queue alone; and run once more on the state it
    produced it changes nothing. *)
Theorem pollCloseProcessor_idempotent (client : DiscordClient) (p : string) (w : World) :
  let r := pollCloseProcessor memPrisma client p w in
  fst r = Normal tt
  /\ (polls (db w) !! p = None -> snd r = w)
  /\ (forall row, polls (db w) !! p = Some row ->
      (status row = CLOSED -> snd r = w)
      /\ (status row = OPEN ->
          db (snd r) = close_in p row (db w) /\ queue (snd r) = queue w))
  /\ pollCloseProcessor memPrisma client p (snd r) = (Normal tt, snd r).
Proof.
  cbv zeta.
  destruct (polls (db w) !! p) as [row|] eqn:Hpoll.
  - destruct (status row) eqn:Hst.
    + destruct (pollCloseProcessor_closes client p w row Hpoll Hst) as (l & E).
      rewrite E. cbn [fst snd].
      split; [reflexivity|]. split; [discriminate|]. split.
      * intros row' Hrow'. injection Hrow' as <-.
        split; [rewrite Hst; discriminate|]. intros _. split; reflexivity.
      * apply pollCloseProcessor_noop. right.
        exists (set_status CLOSED row). split; [|reflexivity].
        unfold close_in. cbn [db polls]. apply lookup_insert_eq.
    + rewrite (pollCloseProcessor_noop client p w) by eauto. cbn [fst snd].
      split; [reflexivity|]. split; [discriminate|]. split.
      * intros row' Hrow'. injection Hrow' as <-.
        split; [reflexivity|]. rewrite Hst. discriminate.
      * apply pollCloseProcessor_noop. eauto.
  - rewrite (pollCloseProcessor_noop client p w) by auto. cbn [fst snd].
    split; [reflexivity|]. split; [reflexivity|]. split.
    + intros row' Hrow'. discriminate.
    + apply pollCloseProcessor_noop. auto.
Qed.

Lemma pollCloseProcessor_idempotent_witness :
  let r := pollCloseProcessor memPrisma okDiscord "poll1" scheduledWorld in
  polls (db scheduledWorld) !! "poll1" = Some mockPoll
  /\ db (snd r) = close_in "poll1" mockPoll (db scheduledWorld)
  /\ pollCloseProcessor memPrisma okDiscord "poll1" (snd r) = (Normal tt, snd r).
Proof.
  cbv zeta.
  destruct (pollCloseProcessor_idempotent okDiscord "poll1" scheduledWorld)
    as (_ & _ & Hrow & Hagain).
  destruct (Hrow mockPoll eq_refl) as (_ & Hopen).
  destruct (Hopen eq_refl) as (Hdb & _).
  split; [reflexivity|]. split; [exact Hdb|exact Hagain].
Defined.

(** ** Scheduling *)

(** C7, as the code has it.  When no job is pending for the poll,
    [addPollCloseJob] registers under the job id of the poll a job whose
    delay is exactly [closeAt - now]: the difference is not clamped, and
    it is negative when [closeAt] is already past. *)
Theorem addPollCloseJob_delay (pollId : string) (closeAt now : Z) (w : World) :
  queue w !! jobId_of pollId = None ->
  addPollCloseJob memQueue pollId closeAt now w
  = (Normal tt,
     mkWorld (db w)
             (<[jobId_of pollId := mkJob "close-poll" pollId (closeAt - now)]> (queue w))
             (discord w))
  /\ ((closeAt < now)%Z -> (closeAt - now < 0)%Z).
Proof.
  intros Hfree. split; [|lia].
  unfold addPollCloseJob, bind, on_queue, ret. cbn [queue_add memQueue].
  unfold mem_queue_add. rewrite Hfree. reflexivity.
Qed.

Lemma addPollCloseJob_delay_witness :
  addPollCloseJob memQueue "poll1" 3600000 0 mockWorld
  = (Normal tt, scheduledWorld).
Proof.
  destruct (addPollCloseJob_delay "poll1" 3600000 0 mockWorld eq_refl) as [E _].
  rewrite E. reflexivity.
Defined.

(** C7, as stated, at a close time one second in the past: the delay that
    reaches the queue is -1000, not 0. *)
Lemma addPollCloseJob_negative_delay :
  job_delay <$> queue (snd (addPollCloseJob memQueue "poll1" 0 1000 mockWorld))
                !! jobId_of "poll1"
  = Some (-1000)%Z
  /\ ~ (0 <= -1000)%Z
  /\ (-1000)%Z <> Z.max 0 (0 - 1000).
Proof. split; [reflexivity|]. split; [lia|discriminate]. Qed.

(** ** The status of a poll never goes back to OPEN *)

Lemma polls_evolve_refl (m : gmap string Poll) : polls_evolve m m.
Proof. intros p row H. exists row. split; [exact H|]. intros E. exact E. Qed.

Lemma polls_evolve_trans (m1 m2 m3 : gmap string Poll) :
  polls_evolve m1 m2 -> polls_evolve m2 m3 -> polls_evolve m1 m3.
Proof.
  intros H12 H23 p row H.
  destruct (H12 p row H) as (row2 & H2 & Hle2).
  destruct (H23 p row2 H2) as (row3 & H3 & Hle3).
  exists row3. split; [exact H3|]. intros E. apply Hle3, Hle2, E.
Qed.

Lemma polls_evolve_update (m : gmap string Poll) (p : string) (row row' : Poll) :
  m !! p = Some row -> status_le (status row) (status row') ->
  polls_evolve m (<[p := row']> m).
Proof.
  intros Hp Hle q r Hq. destruct (decide (p = q)) as [<-|Hne].
  - exists row'. rewrite lookup_insert_eq. split; [reflexivity|].
    rewrite Hp in Hq. injection Hq as <-. exact Hle.
  - exists r. rewrite lookup_insert_ne by exact Hne. split; [exact Hq|].
    intros E. exact E.
Qed.

Lemma polls_evolve_create (m : gmap string Poll) (p : string) (row' : Poll) :
  m !! p = None -> polls_evolve m (<[p := row']> m).
Proof.
  intros Hp q r Hq. exists r. split; [|intros E; exact E].
  rewrite lookup_insert_ne; [exact Hq|]. intros <-. rewrite Hp in Hq. discriminate.
Qed.

Section Preservation.

Context {S : Type} (polls_of : S -> gmap string Poll).

Lemma keeps_ret {A} (a : A) : keeps polls_of (ret a).
Proof. intros s. apply polls_evolve_refl. Qed.

Lemma keeps_throw {A} (e : JsError) : keeps polls_of (@throw S A e).
Proof. intros s. apply polls_evolve_refl. Qed.

Lemma keeps_bind {A B} (m : M S A) (k : A -> M S B) :
  keeps polls_of m -> (forall a, keeps polls_of (k a)) -> keeps polls_of (bind m k).
Proof.
  intros Hm Hk s. unfold bind. specialize (Hm s).
  destruct (m s) as [[a|e] s']; cbn [snd] in *.
  - eapply polls_evolve_trans; [exact Hm|apply Hk].
  - exact Hm.
Qed.

Lemma keeps_try_catch {A} (m : M S A) (h : JsError -> M S A) :
  keeps polls_of m -> (forall e, keeps polls_of (h e)) -> keeps polls_of (try_catch m h).
Proof.
  intros Hm Hh s. unfold try_catch. specialize (Hm s).
  destruct (m s) as [[a|e] s']; cbn [snd] in *.
  - exact Hm.
  - eapply polls_evolve_trans; [exact Hm|apply Hh].
Qed.

Lemma keeps_included {A} (o : option A) : keeps polls_of (included o).
Proof. destruct o; [apply keeps_ret|apply keeps_throw]. Qed.

Lemma keeps_try_return {A} (m : M S A) (h : JsError -> A) (s : S) :
  keeps polls_of m -> polls_evolve (polls_of s) (polls_of (snd (try_return m h s))).
Proof.
  intros Hm. unfold try_return. specialize (Hm s).
  destruct (m s) as [[a|e] s']; exact Hm.
Qed.

End Preservation.

Lemma keeps_on_db {A} (m : M DB A) : keeps polls m -> keeps world_polls (on_db m).
Proof.
  intros Hm w. unfold on_db, world_polls. specialize (Hm (db w)).
  destruct (m (db w)) as [r d']. exact Hm.
Qed.

Lemma keeps_on_queue {A} (m : M (gmap string Job) A) : keeps world_polls (on_queue m).
Proof.
  intros w. unfold on_queue, world_polls.
  destruct (m (queue w)) as [r q']. apply polls_evolve_refl.
Qed.

Lemma keeps_on_discord {A} (m : M (list DiscordEvent) A) : keeps world_polls (on_discord m).
Proof.
  intros w. unfold on_discord, world_polls.
  destruct (m (discord w)) as [r l']. apply polls_evolve_refl.
Qed.

(** The operations of the store in memory. *)

Lemma keeps_mem_findUnique (args : FindPollArgs) : keeps polls (mem_poll_findUnique args).
Proof. intros d. apply polls_evolve_refl. Qed.

Lemma keeps_mem_close (p : string) : keeps polls (mem_poll_update p (UpdateStatus CLOSED)).
Proof.
  intros d. unfold mem_poll_update.
  destruct (polls d !! p) as [row|] eqn:Hp; cbn [snd polls].
  - apply (polls_evolve_update _ _ row); [exact Hp|]. intros _. reflexivity.
  - apply polls_evolve_refl.
Qed.

Lemma keeps_mem_messageId (p m : string) :
  keeps polls (mem_poll_update p (UpdateMessageId m)).
Proof.
  intros d. unfold mem_poll_update.
  destruct (polls d !! p) as [row|] eqn:Hp; cbn [snd polls].
  - apply (polls_evolve_update _ _ row); [exact Hp|]. intros E. exact E.
  - apply polls_evolve_refl.
Qed.

Lemma keeps_mem_poll_create (data : PollCreateData) (now : Z) :
  keeps polls (mem_poll_create data now).
Proof.
  intros d. unfold mem_poll_create.
  destruct (polls d !! new_id "poll" (idSupply d)) eqn:Hp; cbn [snd polls].
  - apply polls_evolve_refl.
  - apply polls_evolve_create. exact Hp.
Qed.

Lemma keeps_mem_vote_create (data : VoteCreateData) : keeps polls (mem_vote_create data).
Proof.
  intros d. unfold mem_vote_create.
  destruct (triple_taken data (votes d)); apply polls_evolve_refl.
Qed.

Lemma keeps_mem_vote_delete (i : string) : keeps polls (mem_vote_delete i).
Proof.
  intros d. unfold mem_vote_delete.
  destruct (find _ (votes d)); apply polls_evolve_refl.
Qed.

Lemma keeps_mem_vote_deleteMany (p u : string) : keeps polls (mem_vote_deleteMany p u).
Proof. intros d. apply polls_evolve_refl. Qed.

Create HintDb keeps.
#[local] Hint Resolve keeps_mem_findUnique keeps_mem_close keeps_mem_messageId
  keeps_mem_poll_create keeps_mem_vote_create keeps_mem_vote_delete
  keeps_mem_vote_deleteMany : keeps.

(** One step of a proof that a function keeps the polls: follow its
    control structure down to the calls of the clients. *)
Ltac keeps_step :=
  first
    [ apply keeps_ret
    | apply keeps_throw
    | apply keeps_included
    | apply keeps_on_queue
    | apply keeps_on_discord
    | apply keeps_on_db; cbn [poll_findUnique poll_update poll_create vote_create
                              vote_delete vote_deleteMany memPrisma];
      solve [auto with keeps]
    | apply keeps_bind; [|intros ?]
    | apply keeps_try_catch; [|intros ?]
    | match goal with
      | |- keeps _ (match ?x with _ => _ end) => destruct x
      end ].

Ltac keeps_all := repeat keeps_step.

Lemma keeps_castVote_body (p u o : string) (now : Z) :
  keeps polls (castVote_body memPrisma p u o now).
Proof.
  unfold castVote_body, castVote_add.
  cbn [poll_findUnique vote_create vote_delete vote_deleteMany memPrisma].
  repeat first
    [ apply keeps_ret | apply keeps_throw | apply keeps_included
    | solve [auto with keeps]
    | apply keeps_bind; [|intros ?]
    | apply keeps_try_catch; [|intros ?]
    | match goal with
      | |- keeps _ (match ?x with _ => _ end) => destruct x
      end ].
Qed.

Lemma keeps_reply (client : DiscordClient) (content : string) (ephemeral : bool) :
  keeps world_polls (reply client content ephemeral).
Proof. unfold reply. keeps_all. Qed.

Lemma keeps_closePoll (client : DiscordClient) (p user : string) :
  keeps world_polls (closePoll memPrisma client p user).
Proof. unfold closePoll. keeps_all. Qed.

Lemma keeps_addPollCloseJob (p : string) (closeAt now : Z) :
  keeps world_polls (addPollCloseJob memQueue p closeAt now).
Proof. unfold addPollCloseJob. keeps_all. Qed.

Lemma keeps_createPoll (client : DiscordClient) (o : CreateOptions)
    (guild channel user : string) (now later : Z) :
  keeps world_polls (createPoll memPrisma memQueue client o guild channel user now later).
Proof.
  unfold createPoll. cbv zeta.
  keeps_all.
Qed.

Lemma keeps_pollCloseProcessor (client : DiscordClient) (p : string) :
  keeps world_polls (pollCloseProcessor memPrisma client p).
Proof. unfold pollCloseProcessor. keeps_all. Qed.

Lemma keeps_updatePollMessage (client : DiscordClient) (poll : PollPayload) :
  keeps world_polls (updatePollMessage memPrisma client poll).
Proof. unfold updatePollMessage. keeps_all. Qed.

Lemma keeps_handleVoteButton (client : DiscordClient) (customId userId : string) (now : Z) :
  keeps world_polls (handleVoteButton memPrisma client customId userId now).
Proof.
  unfold handleVoteButton, button_add, find_for_button. cbv zeta.
  keeps_all.
Qed.

Lemma run_keeps_polls (client : DiscordClient) (op : Operation) (w : World) :
  polls_evolve (world_polls w) (world_polls (run client op w)).
Proof.
  destruct op; unfold run.
  - unfold world_polls, castVote. cbn [db].
    apply (keeps_try_return polls). apply keeps_castVote_body.
  - apply keeps_handleVoteButton.
  - apply keeps_closePoll.
  - apply keeps_createPoll.
  - apply keeps_pollCloseProcessor.
Qed.

Lemma run_all_keeps_polls (client : DiscordClient) (ops : list Operation) (w : World) :
  polls_evolve (world_polls w) (world_polls (run_all client ops w)).
Proof.
  revert w. induction ops as [|op ops IH]; intros w.
  - apply polls_evolve_refl.
  - unfold run_all. cbn [foldl]. eapply polls_evolve_trans.
    + apply (run_keeps_polls client op w).
    + apply IH.
Qed.

(** C8.  Along every sequence of operations (votes through the service
    or the button, poll creation, close by command, execution of a
    closure job), for every Discord client: a poll of the store is still
    in the store afterwards, a CLOSED poll is still CLOSED, and the
    status is either the one it was or went from OPEN to CLOSED. *)
Theorem status_only_closes (client : DiscordClient) (ops : list Operation) (w : World)
    (p : string) (row : Poll) :
  polls (db w) !! p = Some row ->
  exists row', polls (db (run_all client ops w)) !! p = Some row'
    /\ (status row = CLOSED -> status row' = CLOSED)
    /\ (status row' = status row \/ (status row = OPEN /\ status row' = CLOSED)).
Proof.
  intros Hrow.
  destruct (run_all_keeps_polls client ops w p row Hrow) as (row' & Hrow' & Hle).
  exists row'. split; [exact Hrow'|]. split; [exact Hle|].
  unfold status_le in Hle.
  destruct (status row), (status row'); auto.
Qed.

Lemma status_only_closes_witness :
  exists row',
    polls (db (run_all okDiscord
                 [ClosePoll "poll1" "creator1"; CloseJob "poll1";
                  CastVote "poll1" "user1" "option1" 10;
                  VoteButton "vote_poll1_option2" "user2" 20]
                 scheduledWorld)) !! "poll1" = Some row'
    /\ (status mockPoll = CLOSED -> status row' = CLOSED)
    /\ (status row' = status mockPoll \/ (status mockPoll = OPEN /\ status row' = CLOSED)).
Proof.
  apply (status_only_closes okDiscord _ scheduledWorld "poll1" mockPoll).
  reflexivity.
Defined.

(** * Further properties of the vote engine *)

(** ** Every outcome of [castVote] on the store in memory *)

Lemma no_option_found (d : DB) (p o : string) (inc : VotesInclude) :
  find (fun x => String.eqb (option_id (option_row x)) o)
       (load_options d p (mkOptionsInclude inc false)) = None ->
  forall opt, ~ is_option_of d p o opt.
Proof.
  intros Hnone opt Hopt.
  destruct (find_selected_option d p o inc opt Hopt) as (sel & Hsel & _).
  rewrite Hsel in Hnone. discriminate.
Qed.

Lemma option_found (d : DB) (p o : string) (inc : VotesInclude) (sel : OptionPayload) :
  find (fun x => String.eqb (option_id (option_row x)) o)
       (load_options d p (mkOptionsInclude inc false)) = Some sel ->
  is_option_of d p o (option_row sel).
Proof.
  intros Hsel. apply find_some in Hsel as [Hin Heq].
  unfold load_options in Hin. cbn [orderBy_position_asc include_option_votes] in Hin.
  apply list_elem_of_In, list_elem_of_fmap in Hin as (x & -> & Hx).
  apply list_elem_of_filter in Hx as [Hxp Hx].
  cbn [attach_votes option_row] in *.
  apply String.eqb_eq in Heq. repeat split; assumption.
Qed.

(** [castVote] and [validateVote] refuse in the same cases, with the same
    words, and change nothing then. *)
Lemma vote_refused (d : DB) (p u o : string) (now : Z) :
  ~ poll_accepts d p o now ->
  exists msg,
    castVote memPrisma p u o now d = (mkOutcome false msg added, d)
    /\ validateVote memPrisma p u o now d = (mkValidation false (Some msg), d).
Proof.
  intros Hno.
  unfold castVote, validateVote, try_return, castVote_body, validateVote_body,
    bind, castVote_args.
  cbn [poll_findUnique memPrisma].
  destruct (polls d !! p) as [row|] eqn:Hpoll.
  2:{ rewrite (mem_findUnique_absent d (mkFindPollArgs p _ _ _) Hpoll).
      eexists. split; reflexivity. }
  rewrite (mem_findUnique_found d (mkFindPollArgs p _ _ _) row Hpoll).
  unfold load_poll. cbn [poll_row].
  destruct (status row) eqn:Hst; cbn [PollStatus_eqb].
  2:{ eexists. split; reflexivity. }
  destruct (expired row now) eqn:Hexp.
  { eexists. split; reflexivity. }
  cbn [poll_options include_options where_id fmap option_fmap option_map included ret].
  destruct (find (fun x => String.eqb (option_id (option_row x)) o)
                 (load_options d p (mkOptionsInclude NoVotes false)))
    as [sel|] eqn:Hsel.
  2:{ eexists. split; reflexivity. }
  exfalso. apply Hno. exists row, (option_row sel).
  repeat split; try assumption; apply (option_found d p o NoVotes sel Hsel).
Qed.

Lemma validateVote_accepted (d : DB) (p u o : string) (now : Z) :
  poll_accepts d p o now ->
  validateVote memPrisma p u o now d = (mkValidation true None, d).
Proof.
  intros (row & opt & Hpoll & Hst & Hexp & Hopt).
  destruct (find_selected_option d p o NoVotes opt Hopt) as (sel & Hsel & _).
  unfold validateVote, try_return, validateVote_body, bind, castVote_args.
  cbn [poll_findUnique memPrisma].
  rewrite (mem_findUnique_found d (mkFindPollArgs p _ _ _) row Hpoll).
  unfold load_poll. cbn [poll_row]. rewrite Hst, Hexp. cbn [PollStatus_eqb].
  cbn [poll_options include_options where_id fmap option_fmap option_map included ret].
  rewrite Hsel.
  cbn [poll_votes include_votes_where_userId fmap option_fmap option_map included ret].
  destruct (find _ (votes_of_user p u (votes d))); [reflexivity|].
  destruct (negb (allowMultiple row) && _); reflexivity.
Qed.

Lemma castVote_accepted (d : DB) (p u o : string) (now : Z) :
  poll_accepts d p o now ->
  (exists v rest sel,
      votes_of_triple p u o (votes d) = v :: rest
      /\ castVote memPrisma p u o now d
         = (mkOutcome true (msg_removed (text sel)) removed, delete_vote (vote_id v) d))
  \/ (exists row sel,
         polls d !! p = Some row
         /\ votes_of_triple p u o (votes d) = []
         /\ castVote memPrisma p u o now d
            = (mkOutcome true (msg_voted (text sel)) added,
               add_vote (replaces row d p u) p u o d)).
Proof.
  intros (row & opt & Hpoll & Hst & Hexp & Hopt).
  destruct (votes_of_triple p u o (votes d)) as [|v rest] eqn:Hheld.
  - right.
    destruct (castVote_add_path d p u o now row opt Hpoll Hst Hexp Hopt Hheld)
      as (sel & _ & E).
    exists row, sel. auto.
  - left.
    destruct (castVote_remove_path d p u o now row opt Hpoll Hst Hexp Hopt v rest Hheld)
      as (sel & _ & E).
    exists v, rest, sel. auto.
Qed.

Lemma poll_accepts_dec (d : DB) (p o : string) (now : Z) :
  poll_accepts d p o now \/ ~ poll_accepts d p o now.
Proof.
  destruct (polls d !! p) as [row|] eqn:Hpoll.
  2:{ right. intros (row & opt & H & _). congruence. }
  destruct (status row) eqn:Hst.
  2:{ right. intros (row' & opt & H & Hopen & _). congruence. }
  destruct (expired row now) eqn:Hexp.
  { right. intros (row' & opt & H & _ & Hlive & _). congruence. }
  destruct (find (fun x => String.eqb (option_id (option_row x)) o)
                 (load_options d p (mkOptionsInclude NoVotes false)))
    as [sel|] eqn:Hsel.
  - left. exists row, (option_row sel).
    repeat split; try assumption; apply (option_found d p o NoVotes sel Hsel).
  - right. intros (row' & opt & _ & _ & _ & Hopt).
    exact (no_option_found d p o NoVotes Hsel opt Hopt).
Qed.

(** X1.  [castVote] succeeds exactly when the poll is in the store, OPEN,
    not expired, and the option is one of the poll; and a cast that does
    not succeed leaves the store as it was. *)
Theorem castVote_succeeds_iff (d : DB) (p u o : string) (now : Z) :
  (success (fst (castVote memPrisma p u o now d)) = true <-> poll_accepts d p o now)
  /\ (success (fst (castVote memPrisma p u o now d)) = false ->
      snd (castVote memPrisma p u o now d) = d).
Proof.
  destruct (poll_accepts_dec d p o now) as [Hyes|Hno].
  - destruct (castVote_accepted d p u o now Hyes)
      as [(v & rest & sel & _ & E)|(row & sel & _ & _ & E)];
      rewrite E; cbn [fst snd success]; split; try tauto; discriminate.
  - destruct (vote_refused d p u o now Hno) as (msg & E & _).
    rewrite E. cbn [fst snd success]. split; [|reflexivity].
    split; [discriminate|contradiction].
Qed.

(** X2.  [validateVote] never writes, and its verdict is the outcome of
    the cast it stands for: it is valid exactly when [castVote], at the
    same instant on the same store, succeeds, and when it is not its
    reason is the message of [castVote]. *)
Theorem validateVote_agrees_with_castVote (d : DB) (p u o : string) (now : Z) :
  snd (validateVote memPrisma p u o now d) = d
  /\ valid (fst (validateVote memPrisma p u o now d))
     = success (fst (castVote memPrisma p u o now d))
  /\ (valid (fst (validateVote memPrisma p u o now d)) = false ->
      reason (fst (validateVote memPrisma p u o now d))
      = Some (message (fst (castVote memPrisma p u o now d)))).
Proof.
  destruct (poll_accepts_dec d p o now) as [Hyes|Hno].
  - rewrite (validateVote_accepted d p u o now Hyes). cbn [fst snd valid reason].
    destruct (castVote_accepted d p u o now Hyes)
      as [(v & rest & sel & _ & E)|(row & sel & _ & _ & E)];
      rewrite E; cbn [fst success]; repeat split; discriminate.
  - destruct (vote_refused d p u o now Hno) as (msg & E & E').
    rewrite E, E'. cbn [fst snd valid reason success message]. repeat split.
Qed.

(** ** What [castVote] keeps *)

Lemma filter_filter_length {A} (P Q : A -> Prop)
    `{!forall x, Decision (P x)} `{!forall x, Decision (Q x)} (l : list A) :
  (length (filter Q (filter P l)) <= length (filter Q l))%nat.
Proof.
  induction l as [|x l IH]; [reflexivity|].
  rewrite (filter_cons P).
  destruct (decide (P x)); rewrite !filter_cons;
    destruct (decide (Q x)); cbn [length]; lia.
Qed.

Lemma filter_filter_keeps {A} (P Q : A -> Prop)
    `{!forall x, Decision (P x)} `{!forall x, Decision (Q x)} (l : list A) :
  (forall x, x ∈ l -> Q x -> P x) -> filter Q (filter P l) = filter Q l.
Proof.
  induction l as [|x l IH]; intros Himp; [reflexivity|].
  assert (Hl : forall y, y ∈ l -> Q y -> P y).
  { intros y Hy. apply Himp. apply list_elem_of_further. exact Hy. }
  rewrite (filter_cons P). destruct (decide (P x)) as [HP|HP].
  - rewrite !filter_cons. destruct (decide (Q x)); rewrite (IH Hl); reflexivity.
  - rewrite (filter_cons Q). rewrite decide_False.
    + apply IH, Hl.
    + intros HQ. apply HP. apply Himp; [apply list_elem_of_here|exact HQ].
Qed.

Lemma same_id_same_vote (vs : list Vote) (x y : Vote) :
  NoDup (map vote_id vs) -> x ∈ vs -> y ∈ vs -> vote_id x = vote_id y -> x = y.
Proof.
  induction vs as [|v vs IH]; intros Hnd Hx Hy Hid.
  - apply elem_of_nil in Hx. contradiction.
  - cbn [map] in Hnd. apply NoDup_cons in Hnd as [Hv Hnd].
    apply elem_of_cons in Hx as [->|Hx]; apply elem_of_cons in Hy as [->|Hy].
    + reflexivity.
    + exfalso. apply Hv. rewrite Hid. apply list_elem_of_fmap. eauto.
    + exfalso. apply Hv. rewrite <- Hid. apply list_elem_of_fmap. eauto.
    + apply IH; assumption.
Qed.

(** X3.  [castVote] keeps the uniqueness constraint of the store: if no
    triple (poll, user, option) has two rows before a cast, none has two
    rows after it. *)
Theorem castVote_keeps_unique_triples (d : DB) (p u o : string) (now : Z) :
  unique_triples (votes d) ->
  unique_triples (votes (snd (castVote memPrisma p u o now d))).
Proof.
  intros Huniq q w x.
  destruct (poll_accepts_dec d p o now) as [Hyes|Hno].
  - destruct (castVote_accepted d p u o now Hyes)
      as [(v & rest & sel & _ & E)|(row & sel & _ & Hfree & E)];
      rewrite E; cbn [snd].
    + unfold delete_vote. cbn [votes]. unfold votes_of_triple.
      etransitivity; [apply filter_filter_length|apply Huniq].
    + unfold add_vote. cbn [votes]. unfold votes_of_triple.
      rewrite filter_app, length_app.
      rewrite (filter_cons _ (next_vote d p u o)), filter_nil.
      destruct (decide (vote_pollId (next_vote d p u o) = q
                        /\ vote_userId (next_vote d p u o) = w
                        /\ vote_optionId (next_vote d p u o) = x))
        as [(<- & <- & <-)|Hother]; cbn [length next_vote vote_pollId vote_userId
                                           vote_optionId].
      * assert (Hnone : votes_of_triple p u o
                  (if replaces row d p u
                   then filter (fun v => ~ (vote_pollId v = p /\ vote_userId v = u))
                               (votes d)
                   else votes d) = []).
        { destruct (replaces row d p u); [apply triple_of_filter|]; exact Hfree. }
        unfold votes_of_triple in Hnone. rewrite Hnone. cbn [length]. lia.
      * rewrite Nat.add_0_r. destruct (replaces row d p u).
        -- etransitivity; [apply filter_filter_length|apply Huniq].
        -- apply Huniq.
  - destruct (vote_refused d p u o now Hno) as (msg & E & _).
    rewrite E. apply Huniq.
Qed.

Lemma castVote_keeps_unique_triples_witness :
  unique_triples (votes (snd (castVote memPrisma "poll1" "user1" "option2" 10 votedDB))).
Proof.
  apply (castVote_keeps_unique_triples votedDB "poll1" "user1" "option2" 10).
  intros p u o. unfold votes_of_triple, votedDB. cbn [votes].
  rewrite !filter_cons, filter_nil.
  repeat (destruct (decide _) as [(? & ? & ?)|?]; cbn in *; subst;
          try discriminate; try congruence; cbn [length]; try lia).
Defined.

Lemma castVote_keeps_single_select_witness :
  (length (votes_of_user "poll1" "user1"
             (votes (snd (castVote memPrisma "poll1" "user1" "option2" 10 votedDB))))
   <= 1)%nat.
Proof.
  apply (castVote_keeps_single_select votedDB "poll1" "user1" "option2" 10
           "poll1" "user1" mockPoll).
  - reflexivity.
  - reflexivity.
  - vm_compute. lia.
Defined.

(** X5.  A cast touches the votes of the caller on the poll and nothing
    else: the polls and the options are as they were and, when the
    identities of the votes are distinct, the votes of every other user
    and on every other poll are as they were. *)
Theorem castVote_frame (d : DB) (p u o : string) (now : Z) :
  NoDup (map vote_id (votes d)) ->
  polls (snd (castVote memPrisma p u o now d)) = polls d
  /\ pollOptions (snd (castVote memPrisma p u o now d)) = pollOptions d
  /\ forall q w, ~ (q = p /\ w = u) ->
       votes_of_user q w (votes (snd (castVote memPrisma p u o now d)))
       = votes_of_user q w (votes d).
Proof.
  intros Hnd.
  destruct (poll_accepts_dec d p o now) as [Hyes|Hno].
  - destruct (castVote_accepted d p u o now Hyes)
      as [(v & rest & sel & Hheld & E)|(row & sel & _ & Hfree & E)];
      rewrite E; cbn [snd].
    + split; [reflexivity|]. split; [reflexivity|].
      intros q w Hother. unfold delete_vote. cbn [votes]. unfold votes_of_user.
      apply filter_filter_keeps. intros x Hx [Hq Hw] Hid.
      assert (Hv : v ∈ votes_of_triple p u o (votes d)).
      { rewrite Hheld. apply list_elem_of_here. }
      apply triple_in_votes in Hv as (Hv & Hvp & Hvu & _).
      assert (x = v) by (apply (same_id_same_vote (votes d)); assumption).
      subst x. apply Hother. split; congruence.
    + split; [reflexivity|]. split; [reflexivity|].
      intros q w Hother. unfold add_vote. cbn [votes]. unfold votes_of_user.
      rewrite filter_app, (filter_cons _ (next_vote d p u o)), filter_nil.
      rewrite decide_False by (cbn; intros [? ?]; apply Hother; split; congruence).
      rewrite app_nil_r. destruct (replaces row d p u); [|reflexivity].
      apply filter_filter_keeps. intros x _ [Hq Hw] [Hp Hu].
      apply Hother. split; congruence.
  - destruct (vote_refused d p u o now Hno) as (msg & E & _).
    rewrite E. cbn [snd]. repeat split.
Qed.

Lemma castVote_frame_witness :
  votes_of_user "poll1" "user3"
    (votes (snd (castVote memPrisma "poll1" "user1" "option2" 10 votedDB)))
  = [vote3].
Proof.
  assert (Hnd : NoDup (map vote_id (votes votedDB))).
  { apply (bool_decide_unpack _). vm_compute. exact I. }
  destruct (castVote_frame votedDB "poll1" "user1" "option2" 10 Hnd) as (_ & _ & Hframe).
  rewrite (Hframe "poll1" "user3"); [reflexivity|].
  intros [_ H]. discriminate.
Defined.

(** X6.  The replace of single select is not undone when the insertion
    that follows it is rejected: the cast answers a failure and the vote
    the user held before is gone. *)
Theorem castVote_rejected_after_replace (e : JsError) (d : DB) (p u o : string) (now : Z)
    (row : Poll) (opt : PollOption) :
  polls d !! p = Some row -> status row = OPEN -> expired row now = false ->
  allowMultiple row = false -> is_option_of d p o opt ->
  votes_of_triple p u o (votes d) = [] -> votes_of_user p u (votes d) <> [] ->
  success (fst (castVote (rejecting e) p u o now d)) = false
  /\ votes_of_user p u (votes (snd (castVote (rejecting e) p u o now d))) = [].
Proof.
  intros Hpoll Hopen Hlive Hsingle Hopt Hfree Hheld.
  destruct (find_selected_option d p o NoVotes opt Hopt) as (sel & Hsel & Hsel').
  unfold castVote, try_return, castVote_body, bind, castVote_args.
  cbn [poll_findUnique rejecting].
  rewrite (mem_findUnique_found d (mkFindPollArgs p _ _ _) row Hpoll). unfold load_poll.
  cbn [poll_row]. rewrite Hopen, Hlive. cbn [PollStatus_eqb].
  cbn [poll_options include_options where_id fmap option_fmap option_map included ret].
  rewrite Hsel.
  cbn [poll_votes include_votes_where_userId fmap option_fmap option_map included ret].
  rewrite find_existing_vote, Hfree. cbn [head].
  unfold castVote_add, bind, try_catch.
  cbn [vote_deleteMany vote_create rejecting]. rewrite Hsingle. cbn [negb andb].
  destruct (votes_of_user p u (votes d)) as [|v vs] eqn:Hvs; [contradiction|].
  cbn [length Nat.ltb Nat.leb].
  unfold mem_vote_deleteMany, ret, throw.
  destruct (bool_decide (err_code e = Some "P2002")); cbn [fst snd success votes];
    (split; [reflexivity|apply votes_of_user_dropped]).
Qed.

Lemma castVote_rejected_after_replace_witness :
  success (fst (castVote (rejecting P1001) "poll1" "user1" "option2" 10 votedDB)) = false
  /\ votes_of_user "poll1" "user1"
       (votes (snd (castVote (rejecting P1001) "poll1" "user1" "option2" 10 votedDB))) = [].
Proof.
  apply (castVote_rejected_after_replace P1001 votedDB "poll1" "user1" "option2" 10
           mockPoll option2).
  - reflexivity.
  - reflexivity.
  - reflexivity.
  - reflexivity.
  - repeat split. apply list_elem_of_further, list_elem_of_here.
  - reflexivity.
  - discriminate.
Defined.

(** ** Casting and listing *)

Lemma getUserVotes_lists_held (d : DB) (p u : string) :
  getUserVotes memPrisma p u d = (held_options d p u, d).
Proof. reflexivity. Qed.

(** X7.  [getUserVotes] never writes, and it lists what [castVote] just
    did: after a cast that answered [added] the option is in the list of
    the user, and after a cast that answered [removed] it is not, when
    the triple had a single row. *)
Theorem getUserVotes_after_castVote (d : DB) (p u o : string) (now : Z) :
  (length (votes_of_triple p u o (votes d)) <= 1)%nat ->
  let r := castVote memPrisma p u o now d in
  snd (getUserVotes memPrisma p u (snd r)) = snd r
  /\ (success (fst r) = true -> action (fst r) = added ->
      o ∈ fst (getUserVotes memPrisma p u (snd r)))
  /\ (success (fst r) = true -> action (fst r) = removed ->
      o ∉ fst (getUserVotes memPrisma p u (snd r))).
Proof.
  intros Huniq. cbv zeta. rewrite getUserVotes_lists_held. cbn [fst snd].
  split; [reflexivity|].
  destruct (poll_accepts_dec d p o now) as [Hyes|Hno].
  - destruct (castVote_accepted d p u o now Hyes)
      as [(v & rest & sel & Hheld & E)|(row & sel & _ & Hfree & E)];
      rewrite E; cbn [fst snd success action].
    + split; [discriminate|]. intros _ _.
      unfold held_options. apply not_held_iff.
      unfold delete_vote. cbn [votes]. apply triple_after_delete.
      rewrite Hheld in *. destruct rest; [reflexivity|]. cbn in Huniq. lia.
    + split; [|discriminate]. intros _ _.
      unfold held_options.
      destruct (decide (o ∈ map vote_optionId
                          (votes_of_user p u
                             (votes (add_vote (replaces row d p u) p u o d)))))
        as [Hin|Hout]; [exact Hin|].
      apply not_held_iff in Hout.
      rewrite (triple_after_add _ p u o d Hfree) in Hout. discriminate.
  - destruct (vote_refused d p u o now Hno) as (msg & E & _).
    rewrite E. cbn [fst success]. split; discriminate.
Qed.

Lemma getUserVotes_after_castVote_witness :
  let r := castVote memPrisma "poll1" "user1" "option1" 10 votedDB in
  action (fst r) = removed
  /\ "option1" ∉ fst (getUserVotes memPrisma "poll1" "user1" (snd r)).
Proof.
  cbv zeta. split; [reflexivity|].
  assert (Huniq : (length (votes_of_triple "poll1" "user1" "option1" (votes votedDB))
                   <= 1)%nat) by (vm_compute; lia).
  destruct (getUserVotes_after_castVote votedDB "poll1" "user1" "option1" 10 Huniq)
    as (_ & _ & Hremoved).
  apply Hremoved; reflexivity.
Defined.

Lemma votes_of_user_added (d : DB) (p u o : string) :
  votes_of_user p u (votes (add_vote false p u o d))
  = votes_of_user p u (votes d) ++ [next_vote d p u o].
Proof.
  unfold add_vote. cbn [votes]. unfold votes_of_user.
  rewrite filter_app, (filter_cons _ (next_vote d p u o)), filter_nil.
  rewrite decide_True by (cbn; tauto). reflexivity.
Qed.

(** X8.  Under multiple select the casts accumulate: on an open,
    unexpired poll with [allowMultiple = true], a user who holds neither
    of two distinct options of the poll and casts for the first and then
    for the second gets [added] twice and holds, after the options held
    before, the first and the second. *)
Theorem castVote_multi_select_accumulates (d : DB) (p u o1 o2 : string) (now now' : Z)
    (row : Poll) (opt1 opt2 : PollOption) :
  polls d !! p = Some row -> status row = OPEN -> allowMultiple row = true ->
  expired row now = false -> expired row now' = false ->
  is_option_of d p o1 opt1 -> is_option_of d p o2 opt2 -> o1 <> o2 ->
  o1 ∉ held_options d p u -> o2 ∉ held_options d p u ->
  let r1 := castVote memPrisma p u o1 now d in
  let r2 := castVote memPrisma p u o2 now' (snd r1) in
  action (fst r1) = added /\ action (fst r2) = added
  /\ success (fst r1) = true /\ success (fst r2) = true
  /\ held_options (snd r2) p u = held_options d p u ++ [o1; o2].
Proof.
  intros Hpoll Hopen Hmulti Hlive Hlive' Hopt1 Hopt2 Hne Hout1 Hout2. cbv zeta.
  apply not_held_iff in Hout1. apply not_held_iff in Hout2.
  destruct (castVote_add_path d p u o1 now row opt1 Hpoll Hopen Hlive Hopt1 Hout1)
    as (sel1 & _ & E1).
  assert (Hrep : forall d', replaces row d' p u = false).
  { intros d'. unfold replaces. rewrite Hmulti. reflexivity. }
  rewrite Hrep in E1. rewrite E1. cbn [fst snd action success].
  assert (Hfree2 : votes_of_triple p u o2 (votes (add_vote false p u o1 d)) = []).
  { apply not_held_iff. rewrite votes_of_user_added, map_app. cbn [map next_vote vote_optionId].
    rewrite elem_of_app, list_elem_of_singleton. intros [Hin|Heq].
    - apply not_held_iff in Hout2. contradiction.
    - congruence. }
  destruct (castVote_add_path (add_vote false p u o1 d) p u o2 now' row opt2
              Hpoll Hopen Hlive' Hopt2 Hfree2) as (sel2 & _ & E2).
  rewrite Hrep in E2. rewrite E2. cbn [fst snd action success].
  repeat split.
  unfold held_options. rewrite !votes_of_user_added, !map_app, <- app_assoc.
  reflexivity.
Qed.

Lemma castVote_multi_select_accumulates_witness :
  let r1 := castVote memPrisma "poll2" "user1" "option1" 10 multiDB in
  let r2 := castVote memPrisma "poll2" "user1" "option2" 20 (snd r1) in
  held_options (snd r2) "poll2" "user1" = ["option1"; "option2"].
Proof.
  cbv zeta.
  assert (Hopt1 : is_option_of multiDB "poll2" "option1" option21).
  { repeat split. apply list_elem_of_here. }
  assert (Hopt2 : is_option_of multiDB "poll2" "option2" option22).
  { repeat split. apply list_elem_of_further, list_elem_of_here. }
  assert (Hne : "option1" <> "option2") by discriminate.
  destruct (castVote_multi_select_accumulates multiDB "poll2" "user1" "option1" "option2"
              10 20 multiPoll option21 option22 eq_refl eq_refl eq_refl eq_refl eq_refl
              Hopt1 Hopt2 Hne (not_elem_of_nil _) (not_elem_of_nil _))
    as (_ & _ & _ & _ & H).
  exact H.
Defined.

(** * The button *)

(** ** The custom id of a vote button *)

Lemma split_without (sep : Ascii.ascii) (a : string) :
  contains sep a = false -> split sep a = [a].
Proof.
  induction a as [|c a IH]; intros Hno; [reflexivity|].
  cbn [contains] in Hno. apply orb_false_iff in Hno as [Hc Ha].
  cbn [split]. rewrite Hc, (IH Ha). reflexivity.
Qed.

Lemma split_at_first (sep : Ascii.ascii) (a b : string) :
  contains sep a = false -> split sep (a +:+ String sep b) = a :: split sep b.
Proof.
  induction a as [|c a IH]; intros Hno.
  - change (EmptyString +:+ String sep b) with (String sep b).
    cbn [split]. rewrite Ascii.eqb_refl. reflexivity.
  - cbn [contains] in Hno. apply orb_false_iff in Hno as [Hc Ha].
    change (String c a +:+ String sep b) with (String c (a +:+ String sep b)).
    cbn [split]. rewrite Hc, (IH Ha). reflexivity.
Qed.

Lemma prefix_append (a b : string) : String.prefix a (a +:+ b) = true.
Proof.
  induction a as [|c a IH]; [destruct b; reflexivity|].
  change (String c a +:+ b) with (String c (a +:+ b)). cbn [String.prefix].
  destruct (Ascii.ascii_dec c c) as [_|Hne]; [exact IH|].
  exfalso. apply Hne. reflexivity.
Qed.

Lemma split_customId (pollId optionId : string) :
  contains underscore pollId = false -> contains underscore optionId = false ->
  split underscore (vote_customId pollId optionId) = ["vote"; pollId; optionId].
Proof.
  intros Hp Ho. unfold vote_customId.
  change ("vote_" +:+ pollId +:+ "_" +:+ optionId)
    with ("vote" +:+ String underscore (pollId +:+ String underscore optionId)).
  rewrite split_at_first by reflexivity.
  rewrite split_at_first by exact Hp.
  rewrite split_without by exact Ho. reflexivity.
Qed.

(** X9.  The custom id that [createPoll] gives to a button is read back
    by the bot: when neither the id of the poll nor the id of the option
    contains an underscore, [handleButtonInteraction] passes it to
    [handleVoteButton], and the split of the custom id gives back exactly
    the two ids. *)
Theorem customId_round_trip (prisma : PrismaClient) (client : DiscordClient)
    (pollId optionId userId : string) (now : Z) :
  contains underscore pollId = false -> contains underscore optionId = false ->
  split underscore (vote_customId pollId optionId) !! 1%nat = Some pollId
  /\ split underscore (vote_customId pollId optionId) !! 2%nat = Some optionId
  /\ handleButtonInteraction prisma client (vote_customId pollId optionId) userId now
     = handleVoteButton prisma client (vote_customId pollId optionId) userId now.
Proof.
  intros Hp Ho. rewrite (split_customId pollId optionId Hp Ho).
  split; [reflexivity|]. split; [reflexivity|].
  unfold handleButtonInteraction.
  assert (Hprefix : String.prefix "vote_" (vote_customId pollId optionId) = true)
    by apply prefix_append.
  rewrite Hprefix. reflexivity.
Qed.

Lemma customId_round_trip_witness :
  split underscore (vote_customId "poll1" "option1") !! 1%nat = Some "poll1"
  /\ split underscore (vote_customId "poll1" "option1") !! 2%nat = Some "option1".
Proof.
  destruct (customId_round_trip memPrisma okDiscord "poll1" "option1" "user1" 10
              eq_refl eq_refl) as (H1 & H2 & _).
  split; [exact H1|exact H2].
Defined.

(** ** What only goes to Discord *)

Lemma only_discord_ret {A} (a : A) : only_discord (ret a).
Proof. intros w. split; reflexivity. Qed.

Lemma only_discord_throw {A} (e : JsError) : only_discord (@throw World A e).
Proof. intros w. split; reflexivity. Qed.

Lemma only_discord_bind {A B} (m : M World A) (k : A -> M World B) :
  only_discord m -> (forall a, only_discord (k a)) -> only_discord (bind m k).
Proof.
  intros Hm Hk w. unfold bind. specialize (Hm w).
  destruct (m w) as [[a|e] w']; cbn [snd] in *.
  - destruct (Hk a w') as [E1 E2]. destruct Hm as [E3 E4]. split; congruence.
  - exact Hm.
Qed.

Lemma only_discord_try_catch {A} (m : M World A) (h : JsError -> M World A) :
  only_discord m -> (forall e, only_discord (h e)) -> only_discord (try_catch m h).
Proof.
  intros Hm Hh w. unfold try_catch. specialize (Hm w).
  destruct (m w) as [[a|e] w']; cbn [snd] in *.
  - exact Hm.
  - destruct (Hh e w') as [E1 E2]. destruct Hm as [E3 E4]. split; congruence.
Qed.

Lemma only_discord_included {A} (o : option A) : only_discord (@included World A o).
Proof. destruct o; [apply only_discord_ret|apply only_discord_throw]. Qed.

Lemma only_discord_on_discord {A} (m : M (list DiscordEvent) A) :
  only_discord (on_discord m).
Proof.
  intros w. unfold on_discord. destruct (m (discord w)) as [r l']. split; reflexivity.
Qed.

Lemma only_discord_find (args : FindPollArgs) :
  only_discord (on_db (poll_findUnique memPrisma args)).
Proof. intros w. split; reflexivity. Qed.

Lemma only_discord_reply (client : DiscordClient) (content : string) (ephemeral : bool) :
  only_discord (reply client content ephemeral).
Proof.
  unfold reply. apply only_discord_bind; [apply only_discord_on_discord|].
  intros m. apply only_discord_ret.
Qed.

Lemma only_discord_updatePollMessage (client : DiscordClient) (poll : PollPayload) :
  only_discord (updatePollMessage memPrisma client poll).
Proof.
  unfold updatePollMessage. apply only_discord_try_catch.
  - apply only_discord_bind; [apply only_discord_find|].
    intros [updated|]; [apply only_discord_on_discord|apply only_discord_ret].
  - intros e. apply only_discord_ret.
Qed.

Lemma store_only_discord {A} (m : M World A) (w : World) :
  only_discord m -> store_is (snd (m w)) (db w) (queue w).
Proof. intros Hm. exact (Hm w). Qed.

Lemma store_after_bind {A B} (m : M World A) (k : A -> M World B) (w : World)
    (d : DB) (q : gmap string Job) :
  (forall a, only_discord (k a)) -> store_is (snd (m w)) d q ->
  store_is (snd (bind m k w)) d q.
Proof.
  intros Hk Hm. unfold bind. destruct (m w) as [[a|e] w']; cbn [snd] in *.
  - destruct (Hk a w') as [E1 E2]. destruct Hm as [E3 E4]. split; congruence.
  - exact Hm.
Qed.

Lemma store_after_try_catch {A} (m : M World A) (h : JsError -> M World A) (w : World)
    (d : DB) (q : gmap string Job) :
  (forall e, only_discord (h e)) -> store_is (snd (m w)) d q ->
  store_is (snd (try_catch m h w)) d q.
Proof.
  intros Hh Hm. unfold try_catch. destruct (m w) as [[a|e] w']; cbn [snd] in *.
  - exact Hm.
  - destruct (Hh e w') as [E1 E2]. destruct Hm as [E3 E4]. split; congruence.
Qed.

Lemma store_after_on_db {A B} (m : M DB A) (k : A -> M World B) (w : World) :
  (forall a, only_discord (k a)) ->
  store_is (snd (bind (on_db m) k w)) (snd (m (db w))) (queue w).
Proof.
  intros Hk. apply store_after_bind; [exact Hk|].
  unfold on_db. destruct (m (db w)) as [r d']. split; reflexivity.
Qed.

Create HintDb only_discord.
#[local] Hint Resolve only_discord_ret only_discord_throw only_discord_included
  only_discord_on_discord only_discord_find only_discord_reply
  only_discord_updatePollMessage : only_discord.

(** One step of a proof that a function only talks to Discord. *)
Ltac only_discord_step :=
  first
    [ solve [auto with only_discord]
    | apply only_discord_bind; [|intros ?]
    | apply only_discord_try_catch; [|intros ?]
    | match goal with
      | |- only_discord (match ?x with _ => _ end) => destruct x
      end ].

(** X11.  A custom id of two parts, one that names a poll and no option,
    never changes a vote: whatever the poll, the user and the Discord
    client, [handleVoteButton] changes neither the store nor the queue. *)
Theorem handleVoteButton_short_customId (client : DiscordClient)
    (customId userId : string) (now : Z) (w : World) :
  length (split underscore customId) = 2%nat ->
  db (snd (handleVoteButton memPrisma client customId userId now w)) = db w
  /\ queue (snd (handleVoteButton memPrisma client customId userId now w)) = queue w.
Proof.
  intros Hshort. apply store_only_discord.
  unfold handleVoteButton. cbv zeta.
  rewrite (lookup_ge_None_2 (split underscore customId) 2) by lia.
  unfold find_for_button. cbn [is_optionId].
  apply only_discord_try_catch; [|intros e; apply only_discord_reply].
  apply only_discord_bind.
  - destruct (split underscore customId !! 1%nat); auto with only_discord.
  - intros [poll|]; [|apply only_discord_reply].
    destruct (PollStatus_eqb _ _); [apply only_discord_reply|].
    destruct (expired _ _); [apply only_discord_reply|].
    apply only_discord_bind; [apply only_discord_included|].
    intros options.
    assert (Hfind : find (fun _ : OptionPayload => false) options = None).
    { induction options as [|x xs IH]; [reflexivity|exact IH]. }
    rewrite Hfind. apply only_discord_reply.
Qed.

Lemma handleVoteButton_short_customId_witness :
  db (snd (handleVoteButton memPrisma okDiscord "vote_poll1" "user1" 10 mockWorld))
  = db mockWorld.
Proof.
  apply (handleVoteButton_short_customId okDiscord "vote_poll1" "user1" 10 mockWorld).
  vm_compute. reflexivity.
Defined.

(** ** The button and the service *)

Lemma store_is_refl (d : DB) (q : gmap string Job) (l : list DiscordEvent) :
  store_is (mkWorld d q l) d q.
Proof. split; reflexivity. Qed.

(** X10.  The button does to the store what the service does: for the
    custom id of an option button (ids without underscore) and every
    Discord client, the store after [handleVoteButton] is the store after
    [castVote] for the same poll, user, option and instant, and the queue
    is untouched. *)
Theorem handleVoteButton_same_store_as_castVote (client : DiscordClient)
    (p u o : string) (now : Z) (w : World) :
  contains underscore p = false -> contains underscore o = false ->
  db (snd (handleVoteButton memPrisma client (vote_customId p o) u now w))
  = snd (castVote memPrisma p u o now (db w))
  /\ queue (snd (handleVoteButton memPrisma client (vote_customId p o) u now w))
     = queue w.
Proof.
  intros Hp Ho. destruct w as [d q l]. cbn [db queue].
  change (store_is (snd (handleVoteButton memPrisma client (vote_customId p o) u now
                           (mkWorld d q l)))
                   (snd (castVote memPrisma p u o now d)) q).
  unfold handleVoteButton. cbv zeta. rewrite (split_customId p o Hp Ho).
  change (["vote"; p; o] !! 1%nat) with (Some p).
  change (["vote"; p; o] !! 2%nat) with (Some o).
  change (default "" (Some p)) with p.
  cbn [find_for_button is_optionId].
  apply store_after_try_catch; [intros e; apply only_discord_reply|].
  unfold bind at 1. unfold on_db at 1, button_args. cbn [poll_findUnique memPrisma db queue discord].
  destruct (polls d !! p) as [row|] eqn:Hpoll.
  2:{ rewrite (mem_findUnique_absent d (mkFindPollArgs p _ _ _) Hpoll).
      destruct (vote_refused d p u o now) as (msg & E & _).
      { intros (row & opt & H & _). congruence. }
      rewrite E. apply (store_only_discord (reply client _ _) (mkWorld d q l)).
      apply only_discord_reply. }
  rewrite (mem_findUnique_found d (mkFindPollArgs p _ _ _) row Hpoll).
  unfold load_poll. cbn [poll_row].
  destruct (status row) eqn:Hst; cbn [PollStatus_eqb].
  2:{ destruct (vote_refused d p u o now) as (msg & E & _).
      { intros (row' & opt & H & Hopen & _). congruence. }
      rewrite E. apply (store_only_discord (reply client _ _) (mkWorld d q l)).
      apply only_discord_reply. }
  destruct (expired row now) eqn:Hexp.
  { destruct (vote_refused d p u o now) as (msg & E & _).
    { intros (row' & opt & H & _ & Hlive & _). congruence. }
    rewrite E. apply (store_only_discord (reply client _ _) (mkWorld d q l)).
    apply only_discord_reply. }
  cbn [poll_options include_options where_id fmap option_fmap option_map included].
  unfold bind at 1, ret at 1.
  destruct (find (fun x => String.eqb (option_id (option_row x)) o)
                 (load_options d p (mkOptionsInclude AllVotes false)))
    as [sel|] eqn:Hsel.
  2:{ destruct (vote_refused d p u o now) as (msg & E & _).
      { intros (row' & opt & _ & _ & _ & Hopt).
        exact (no_option_found d p o AllVotes Hsel opt Hopt). }
      rewrite E. apply (store_only_discord (reply client _ _) (mkWorld d q l)).
      apply only_discord_reply. }
  pose proof (option_found d p o AllVotes sel Hsel) as Hopt.
  cbn [poll_votes include_votes_where_userId fmap option_fmap option_map included].
  unfold bind at 1, ret at 1.
  rewrite find_existing_vote.
  destruct (votes_of_triple p u o (votes d)) as [|v rest] eqn:Hheld; cbn [head].
  - destruct (castVote_add_path d p u o now row _ Hpoll Hst Hexp Hopt Hheld)
      as (sel' & _ & E).
    rewrite E. cbn [snd].
    apply store_after_bind.
    { intros [|]; [apply only_discord_updatePollMessage|apply only_discord_ret]. }
    destruct Hopt as (_ & _ & Hoid). rewrite Hoid.
    unfold button_add, add_vote, replaces. cbn [vote_deleteMany vote_create memPrisma].
    destruct (negb (allowMultiple row) && (0 <? length (votes_of_user p u (votes d)))%nat).
    + unfold bind at 1. unfold bind at 1. unfold on_db at 1, mem_vote_deleteMany.
      cbn [db queue discord]. unfold ret at 1.
      apply store_after_try_catch.
      { intros e. apply only_discord_bind; [apply only_discord_reply|].
        intros ?. apply only_discord_ret. }
      match goal with
      | |- store_is (snd (bind (on_db ?m) ?k ?w0)) _ _ =>
          pose proof (store_after_on_db m k w0) as Hrun
      end.
      cbn [db queue] in Hrun.
      unfold mem_vote_create at 2, triple_taken in Hrun.
      cbn [votes data_pollId data_userId data_optionId polls pollOptions idSupply] in Hrun.
      rewrite (triple_of_filter _ p u o (votes d) Hheld) in Hrun.
      rewrite bool_decide_eq_false_2 in Hrun by tauto.
      apply Hrun. intros a.
      apply only_discord_bind; [apply only_discord_reply|].
      intros ?. apply only_discord_ret.
    + unfold bind at 1. unfold ret at 1.
      apply store_after_try_catch.
      { intros e. apply only_discord_bind; [apply only_discord_reply|].
        intros ?. apply only_discord_ret. }
      match goal with
      | |- store_is (snd (bind (on_db ?m) ?k ?w0)) _ _ =>
          pose proof (store_after_on_db m k w0) as Hrun
      end.
      cbn [db queue] in Hrun.
      unfold mem_vote_create at 2, triple_taken in Hrun.
      cbn [votes data_pollId data_userId data_optionId polls pollOptions idSupply] in Hrun.
      rewrite Hheld in Hrun.
      rewrite bool_decide_eq_false_2 in Hrun by tauto.
      apply Hrun. intros a.
      apply only_discord_bind; [apply only_discord_reply|].
      intros ?. apply only_discord_ret.
  - destruct (castVote_remove_path d p u o now row _ Hpoll Hst Hexp Hopt v rest Hheld)
      as (sel' & _ & E).
    rewrite E. cbn [snd].
    assert (Hin : v ∈ votes d).
    { apply (triple_in_votes p u o). rewrite Hheld. apply list_elem_of_here. }
    destruct (find_by_id _ _ Hin) as (v' & Hv').
    match goal with
    | |- store_is (snd (bind (on_db ?m) ?k ?w0)) _ _ =>
        pose proof (store_after_on_db m k w0) as Hrun
    end.
    cbn [db queue vote_delete memPrisma] in Hrun.
    unfold mem_vote_delete at 2 in Hrun. rewrite Hv' in Hrun. cbn [snd] in Hrun.
    apply Hrun. intros a.
    apply only_discord_bind; [apply only_discord_reply|].
    intros ?. apply only_discord_updatePollMessage.
Qed.

Lemma handleVoteButton_same_store_as_castVote_witness :
  db (snd (handleVoteButton memPrisma okDiscord (vote_customId "poll1" "option1")
                            "user1" 10 mockWorld))
  = snd (castVote memPrisma "poll1" "user1" "option1" 10 mockDB).
Proof.
  destruct (handleVoteButton_same_store_as_castVote okDiscord "poll1" "user1" "option1"
              10 mockWorld eq_refl eq_refl) as [E _].
  exact E.
Defined.

(** * Further properties of the commands *)

(** X12.  [showStats] never shows statistics: for every store, client
    and poll id, also when the poll exists, the query is not even sent
    (its argument object reads the constant that the query initializes)
    and the command answers "An error occurred while fetching poll
    statistics."; store and queue are untouched. *)
Theorem showStats_always_fails (prisma : PrismaClient) (client : DiscordClient)
    (pollId : string) (w : World) :
  showStats prisma client pollId w = reply client reply_stats_error true w
  /\ db (snd (showStats prisma client pollId w)) = db w
  /\ queue (snd (showStats prisma client pollId w)) = queue w.
Proof.
  assert (E : showStats prisma client pollId w = reply client reply_stats_error true w)
    by reflexivity.
  split; [exact E|]. rewrite E.
  exact (only_discord_reply client reply_stats_error true w).
Qed.

(** X13.  [createPoll] refuses a list of fewer than two or of more than
    ten options before anything else happens: for every store, queue and
    Discord client it only sends the reply that names the bound. *)
Theorem createPoll_option_bounds (prisma : PrismaClient) (pollCloseQueue : QueueClient)
    (client : DiscordClient) (o : CreateOptions) (guild channel user : string)
    (now later : Z) (w : World) :
  (length (opt_options o) < 2 \/ 10 < length (opt_options o))%nat ->
  createPoll prisma pollCloseQueue client o guild channel user now later w
  = reply client
      (if (length (opt_options o) <? 2)%nat then reply_too_few else reply_too_many)
      true w.
Proof.
  intros Hbad. unfold createPoll. cbv zeta.
  destruct (length (opt_options o) <? 2)%nat eqn:Hfew; [reflexivity|].
  apply Nat.ltb_ge in Hfew.
  destruct (10 <? length (opt_options o))%nat eqn:Hmany; [reflexivity|].
  apply Nat.ltb_ge in Hmany. lia.
Qed.

Lemma createPoll_option_bounds_witness :
  createPoll memPrisma memQueue okDiscord
    (mkCreateOptions "Lunch" ["Pizza"] None None None None)
    "guild1" "channel1" "user1" 0 0 mockWorld
  = reply okDiscord reply_too_few true mockWorld.
Proof.
  apply (createPoll_option_bounds memPrisma memQueue okDiscord
           (mkCreateOptions "Lunch" ["Pizza"] None None None None)
           "guild1" "channel1" "user1" 0 0 mockWorld).
  left. cbn. lia.
Defined.

(** X14.  The options that [createPoll] stores for a list of at most ten
    texts: as many as the texts, the i-th with the i-th text, position
    i, and the i-th emoji of the table, which is defined. *)
Theorem option_data_positions (options : list string) :
  (length options <= 10)%nat ->
  length (option_data options) = length options
  /\ forall i data, option_data options !! i = Some data ->
       options !! i = Some (data_text data)
       /\ data_position data = Z.of_nat i
       /\ EMOJI_OPTIONS !! i = Some (data_emoji data).
Proof.
  intros Hlen. unfold option_data. split; [apply length_imap|].
  intros i data Hi. rewrite list_lookup_imap in Hi.
  destruct (options !! i) as [t|] eqn:Ht; [|discriminate].
  cbn in Hi. injection Hi as <-. cbn [data_text data_position data_emoji].
  split; [reflexivity|]. split; [reflexivity|].
  apply lookup_lt_Some in Ht.
  destruct (lookup_lt_is_Some_2 EMOJI_OPTIONS i) as [e He].
  { change (length EMOJI_OPTIONS) with 10%nat. lia. }
  rewrite He. reflexivity.
Qed.

Lemma option_data_positions_witness :
  length (option_data ["Red"; "Blue"]) = 2%nat.
Proof.
  assert (Hlen : (length ["Red"; "Blue"] <= 10)%nat) by (cbn; lia).
  destruct (option_data_positions ["Red"; "Blue"] Hlen) as [E _]. exact E.
Defined.

Lemma createPoll_db (o : CreateOptions) (guild channel user : string)
    (now later : Z) (w : World) :
  (2 <= length (opt_options o) <= 10)%nat ->
  polls (db w) !! new_id "poll" (idSupply (db w)) = None ->
  let p := new_id "poll" (idSupply (db w)) in
  let opts := new_options p (S (idSupply (db w))) (option_data (opt_options o)) in
  db (snd (createPoll memPrisma memQueue okDiscord o guild channel user now later w))
  = mkDB (<[p := mkPoll p (opt_title o) (opt_description o) guild channel
                        (Some (new_id "message" (length (discord w)))) user
                        (default false (opt_multiple o))
                        (default false (opt_anonymous o))
                        OPEN (expiry_of (opt_duration o) now) now]>
            (<[p := mkPoll p (opt_title o) (opt_description o) guild channel
                          None user
                          (default false (opt_multiple o))
                          (default false (opt_anonymous o))
                          OPEN (expiry_of (opt_duration o) now) now]>
               (polls (db w))))
         (pollOptions (db w) ++ opts) (votes (db w))
         (S (idSupply (db w)) + length opts).
Proof.
  intros [Hmin Hmax] Hfresh. cbv zeta.
  unfold createPoll. cbv zeta.
  rewrite (proj2 (Nat.ltb_ge _ _) Hmin).
  assert (Hmany : (10 <? length (opt_options o))%nat = false) by (apply Nat.ltb_ge; lia).
  rewrite Hmany.
  unfold try_catch, bind, on_db, on_discord.
  cbn [poll_create poll_update memPrisma interaction_reply okDiscord].
  unfold mem_poll_create. rewrite Hfresh.
  cbn [db queue discord poll_row poll_id].
  unfold mem_poll_update. cbn [polls]. rewrite lookup_insert_eq.
  cbn [db queue discord apply_update set_messageId poll_id title description guildId
       channelId creatorId allowMultiple isAnonymous status expiresAt createdAt
       polls pollOptions votes idSupply].
  destruct (expiry_of (opt_duration o) now) as [closeAt|]; [|reflexivity].
  unfold addPollCloseJob, bind, on_queue, ret. cbn [queue_add memQueue queue].
  unfold mem_queue_add.
  destruct (queue w !! jobId_of (new_id "poll" (idSupply (db w)))); reflexivity.
Qed.

(** X15.  A poll created with two to ten options (identity free in the
    store, no job under its id, Discord reachable): the poll is stored
    OPEN, owned by the caller, with the settings asked for, the expiry
    [now + duration * 60000] when a duration was given, and the id of the
    message that shows it; its options are appended to the options of
    the store; no vote and no other poll is touched; and the closure job
    is queued exactly when there is an expiry, with the delay from the
    instant the job is added. *)
Theorem createPoll_creates (o : CreateOptions) (guild channel user : string)
    (now later : Z) (w : World) :
  (2 <= length (opt_options o) <= 10)%nat ->
  polls (db w) !! new_id "poll" (idSupply (db w)) = None ->
  queue w !! jobId_of (new_id "poll" (idSupply (db w))) = None ->
  let p := new_id "poll" (idSupply (db w)) in
  let w' := snd (createPoll memPrisma memQueue okDiscord o guild channel user
                            now later w) in
  polls (db w') !! p
  = Some (mkPoll p (opt_title o) (opt_description o) guild channel
                 (Some (new_id "message" (length (discord w)))) user
                 (default false (opt_multiple o)) (default false (opt_anonymous o))
                 OPEN (expiry_of (opt_duration o) now) now)
  /\ pollOptions (db w')
     = pollOptions (db w) ++ new_options p (S (idSupply (db w)))
                                         (option_data (opt_options o))
  /\ votes (db w') = votes (db w)
  /\ (forall q, q <> p -> polls (db w') !! q = polls (db w) !! q)
  /\ queue w'
     = match expiry_of (opt_duration o) now with
       | Some closeAt =>
           <[jobId_of p := mkJob "close-poll" p (closeAt - later)]> (queue w)
       | None => queue w
       end.
Proof.
  intros [Hmin Hmax] Hfresh Hnojob. cbv zeta.
  unfold createPoll. cbv zeta.
  rewrite (proj2 (Nat.ltb_ge _ _) Hmin).
  assert (Hmany : (10 <? length (opt_options o))%nat = false) by (apply Nat.ltb_ge; lia).
  rewrite Hmany.
  unfold try_catch, bind, on_db, on_discord.
  cbn [poll_create poll_update memPrisma interaction_reply okDiscord].
  unfold mem_poll_create. rewrite Hfresh.
  cbn [db queue discord poll_row poll_id].
  unfold mem_poll_update. cbn [polls]. rewrite lookup_insert_eq.
  cbn [db queue discord apply_update set_messageId poll_id title description guildId
       channelId creatorId allowMultiple isAnonymous status expiresAt createdAt
       polls pollOptions votes idSupply].
  destruct (expiry_of (opt_duration o) now) as [closeAt|] eqn:Hexp.
  - unfold addPollCloseJob, bind, on_queue, ret. cbn [queue_add memQueue queue].
    unfold mem_queue_add. rewrite Hnojob. cbn [snd db queue polls pollOptions votes].
    split; [apply lookup_insert_eq|]. split; [reflexivity|]. split; [reflexivity|].
    split; [|reflexivity].
    intros q Hq. rewrite !lookup_insert_ne by congruence. reflexivity.
  - cbn [snd ret db queue polls pollOptions votes].
    split; [apply lookup_insert_eq|]. split; [reflexivity|]. split; [reflexivity|].
    split; [|reflexivity].
    intros q Hq. rewrite !lookup_insert_ne by congruence. reflexivity.
Qed.


Lemma createPoll_creates_witness :
  let o := mkCreateOptions "Colour" ["Red"; "Blue"] None None None (Some 60%Z) in
  let w := mkWorld (mkDB ∅ [] [] 0) ∅ [] in
  let w' := snd (createPoll memPrisma memQueue okDiscord o "guild1" "channel1" "userA"
                            1000 1005 w) in
  queue w' = {[ "poll-poll0" := mkJob "close-poll" "poll0" 3599995 ]}
  /\ map position (pollOptions (db w')) = [0%Z; 1%Z].
Proof.
  cbv zeta.
  assert (Hlen : (2 <= length ["Red"; "Blue"] <= 10)%nat) by (cbn; lia).
  assert (Hfresh : polls (mkDB ∅ [] [] 0) !! new_id "poll" 0 = None)
    by (vm_compute; reflexivity).
  assert (Hnojob : (∅ : gmap string Job) !! jobId_of (new_id "poll" 0) = None)
    by (vm_compute; reflexivity).
  destruct (createPoll_creates
              (mkCreateOptions "Colour" ["Red"; "Blue"] None None None (Some 60%Z))
              "guild1" "channel1" "userA" 1000 1005
              (mkWorld (mkDB ∅ [] [] 0) ∅ []) Hlen Hfresh Hnojob)
    as (_ & Hopts & _ & _ & Hq).
  split.
  - rewrite Hq. vm_compute. reflexivity.
  - rewrite Hopts. vm_compute. reflexivity.
Defined.

(** * Further properties of the scheduler *)

Lemma jobId_of_inj (p q : string) : jobId_of p = jobId_of q -> p = q.
Proof. unfold jobId_of. cbn. intros H. injection H as H. exact H. Qed.

(** X16.  [removePollCloseJob] never fails, also when no job is pending;
    afterwards no job is pending for the poll, the jobs of the other
    polls are the ones that were pending, and the store is untouched. *)
Theorem removePollCloseJob_only_that_poll (pollId : string) (w : World) :
  fst (removePollCloseJob memQueue pollId w) = Normal tt
  /\ queue (snd (removePollCloseJob memQueue pollId w)) !! jobId_of pollId = None
  /\ (forall q, q <> pollId ->
        queue (snd (removePollCloseJob memQueue pollId w)) !! jobId_of q
        = queue w !! jobId_of q)
  /\ db (snd (removePollCloseJob memQueue pollId w)) = db w.
Proof.
  unfold removePollCloseJob, bind, on_queue.
  cbn [queue_getJob job_remove memQueue]. unfold mem_queue_getJob, mem_job_remove, ret.
  destruct (queue w !! jobId_of pollId) eqn:Hjob; cbn [fst snd queue db].
  - split; [reflexivity|]. split; [apply lookup_delete_eq|]. split; [|reflexivity].
    intros q Hq. apply lookup_delete_ne. intros E. apply Hq. symmetry.
    apply jobId_of_inj. exact E.
  - split; [reflexivity|]. split; [exact Hjob|]. split; reflexivity.
Qed.

(** X17.  Scheduling and cancelling undo each other: when no job is
    pending for the poll, [addPollCloseJob] followed by
    [removePollCloseJob] leaves the queue and the store as they were,
    whatever the close time. *)
Theorem schedule_then_cancel (pollId : string) (closeAt now : Z) (w : World) :
  queue w !! jobId_of pollId = None ->
  let w1 := snd (addPollCloseJob memQueue pollId closeAt now w) in
  queue w1 !! jobId_of pollId = Some (mkJob "close-poll" pollId (closeAt - now))
  /\ queue (snd (removePollCloseJob memQueue pollId w1)) = queue w
  /\ db (snd (removePollCloseJob memQueue pollId w1)) = db w.
Proof.
  intros Hfree. cbv zeta.
  unfold addPollCloseJob, removePollCloseJob, bind, on_queue, ret.
  cbn [queue_add queue_getJob job_remove memQueue].
  unfold mem_queue_add, mem_queue_getJob, mem_job_remove. rewrite Hfree.
  cbn [fst snd queue db]. rewrite lookup_insert_eq. cbn [fst snd queue db].
  split; [reflexivity|]. split; [|reflexivity].
  rewrite delete_insert_eq. apply delete_id. exact Hfree.
Qed.

Lemma schedule_then_cancel_witness :
  queue (snd (removePollCloseJob memQueue "poll1"
                (snd (addPollCloseJob memQueue "poll1" 3600000 0 mockWorld))))
  = queue mockWorld.
Proof.
  destruct (schedule_then_cancel "poll1" 3600000 0 mockWorld eq_refl) as (_ & E & _).
  exact E.
Defined.

(** ** After the close *)

Lemma closePoll_store (client : DiscordClient) (p user : string) (w : World) :
  store_is (snd (closePoll memPrisma client p user w))
    match polls (db w) !! p with
    | Some row =>
        if String.eqb (creatorId row) user && PollStatus_eqb (status row) OPEN
        then close_in p row (db w) else db w
    | None => db w
    end
    (queue w).
Proof.
  destruct w as [d q l]. cbn [db queue].
  unfold closePoll. apply store_after_try_catch; [intros e; apply only_discord_reply|].
  unfold bind at 1. unfold on_db at 1, closePoll_args.
  cbn [poll_findUnique memPrisma db queue discord].
  destruct (polls d !! p) as [row|] eqn:Hpoll.
  2:{ rewrite (mem_findUnique_absent d (mkFindPollArgs p _ _ _) Hpoll).
      apply (store_only_discord (reply client _ _) (mkWorld d q l)).
      apply only_discord_reply. }
  rewrite (mem_findUnique_found d (mkFindPollArgs p _ _ _) row Hpoll).
  unfold load_poll. cbn [poll_row].
  destruct (String.eqb (creatorId row) user); cbn [negb andb].
  2:{ apply (store_only_discord (reply client _ _) (mkWorld d q l)).
      apply only_discord_reply. }
  destruct (status row) eqn:Hst; cbn [PollStatus_eqb].
  - match goal with
    | |- store_is (snd (bind (on_db ?m) ?k ?w0)) _ _ =>
        pose proof (store_after_on_db m k w0) as Hrun
    end.
    cbn [db queue poll_update memPrisma] in Hrun.
    rewrite (mem_update_found d p _ row Hpoll) in Hrun. cbn [snd apply_update] in Hrun.
    apply Hrun. intros a. apply only_discord_reply.
  - apply (store_only_discord (reply client _ _) (mkWorld d q l)).
    apply only_discord_reply.
Qed.

(** X18.  Once its creator has closed a poll (whatever its status was,
    whatever the Discord client does), the closure job that fires later
    changes nothing and completes, and every cast on the poll is refused
    with "Poll is closed" and changes nothing. *)
Theorem closed_by_creator_stays_closed (client : DiscordClient) (p user : string)
    (w : World) (row : Poll) :
  polls (db w) !! p = Some row -> creatorId row = user ->
  let w1 := snd (closePoll memPrisma client p user w) in
  pollCloseProcessor memPrisma client p w1 = (Normal tt, w1)
  /\ forall u o now,
       castVote memPrisma p u o now (db w1) = (mkOutcome false msg_poll_closed added, db w1).
Proof.
  intros Hpoll Hcreator. cbv zeta.
  destruct (closePoll_store client p user w) as [Hdb _].
  rewrite Hpoll in Hdb. rewrite Hcreator, String.eqb_refl in Hdb. cbn [andb] in Hdb.
  assert (Hclosed : exists row', polls (db (snd (closePoll memPrisma client p user w))) !! p
                                 = Some row' /\ status row' = CLOSED).
  { rewrite Hdb. destruct (status row) eqn:Hst; cbn [PollStatus_eqb].
    - exists (set_status CLOSED row). split; [|reflexivity].
      unfold close_in. cbn [polls]. apply lookup_insert_eq.
    - exists row. auto. }
  split.
  - apply pollCloseProcessor_noop. right. exact Hclosed.
  - intros u o now. destruct Hclosed as (row' & Hrow' & Hst').
    destruct (castVote_refused _ p u o now row' Hrow') as [E _]. exact (E Hst').
Qed.

Lemma closed_by_creator_stays_closed_witness :
  let w1 := snd (closePoll memPrisma okDiscord "poll1" "creator1" scheduledWorld) in
  pollCloseProcessor memPrisma okDiscord "poll1" w1 = (Normal tt, w1).
Proof.
  cbv zeta.
  destruct (closed_by_creator_stays_closed okDiscord "poll1" "creator1" scheduledWorld
              mockPoll eq_refl eq_refl) as [E _].
  exact E.
Defined.

Lemma closePoll_already_closed (p user : string) (w : World) (row : Poll) :
  polls (db w) !! p = Some row -> creatorId row = user -> status row = CLOSED ->
  closePoll memPrisma okDiscord p user w
  = (Normal tt,
     mkWorld (db w) (queue w) (discord w ++ [Reply reply_already_closed true])).
Proof.
  intros Hpoll Hcreator Hst.
  unfold closePoll, try_catch, bind, reply, closePoll_args, on_db, on_discord.
  cbn [poll_findUnique memPrisma interaction_reply okDiscord].
  rewrite (mem_findUnique_found (db w) (mkFindPollArgs p _ _ _) row Hpoll).
  unfold load_poll. cbn [poll_row db queue discord].
  rewrite Hcreator, String.eqb_refl, Hst. reflexivity.
Qed.

(** X19.  Once the closure job of a poll in the store has run, every
    cast on the poll is refused with "Poll is closed", and its creator
    who closes it is answered "This poll is already closed."; neither
    changes the store. *)
Theorem closed_by_job_stays_closed (client : DiscordClient) (p : string) (w : World)
    (row : Poll) :
  polls (db w) !! p = Some row ->
  let w1 := snd (pollCloseProcessor memPrisma client p w) in
  (forall u o now,
     castVote memPrisma p u o now (db w1) = (mkOutcome false msg_poll_closed added, db w1))
  /\ db (snd (closePoll memPrisma okDiscord p (creatorId row) w1)) = db w1
  /\ discord (snd (closePoll memPrisma okDiscord p (creatorId row) w1))
     = discord w1 ++ [Reply reply_already_closed true].
Proof.
  intros Hpoll. cbv zeta.
  assert (Hclosed : exists row', polls (db (snd (pollCloseProcessor memPrisma client p w))) !! p
                                 = Some row' /\ status row' = CLOSED
                                 /\ creatorId row' = creatorId row).
  { destruct (status row) eqn:Hst.
    - destruct (pollCloseProcessor_closes client p w row Hpoll Hst) as (l & E).
      rewrite E. cbn [snd db]. exists (set_status CLOSED row).
      split; [|split; reflexivity]. unfold close_in. cbn [polls]. apply lookup_insert_eq.
    - rewrite (pollCloseProcessor_noop client p w) by eauto. cbn [snd]. eauto. }
  destruct Hclosed as (row' & Hrow' & Hst' & Hc').
  split.
  - intros u o now.
    destruct (castVote_refused _ p u o now row' Hrow') as [E _]. exact (E Hst').
  - rewrite (closePoll_already_closed p (creatorId row) _ row' Hrow' Hc' Hst').
    split; reflexivity.
Qed.

Lemma closed_by_job_stays_closed_witness :
  let w1 := snd (pollCloseProcessor memPrisma okDiscord "poll1" scheduledWorld) in
  castVote memPrisma "poll1" "user1" "option1" 10 (db w1)
  = (mkOutcome false msg_poll_closed added, db w1).
Proof.
  cbv zeta.
  destruct (closed_by_job_stays_closed okDiscord "poll1" scheduledWorld mockPoll eq_refl)
    as [E _].
  apply E.
Defined.

(** * The progress bar *)

Lemma createProgressBar_nat (n : nat) :
  (n <= 100)%nat ->
  createProgressBar (number_of_Z (Z.of_nat n))
  = Normal (repeat_string (Z.to_nat ((Z.of_nat n + 5) / 10)) FILLED_CELL
            +:+ repeat_string (Z.to_nat (10 - (Z.of_nat n + 5) / 10)) EMPTY_CELL).
Proof.
  intros Hn.
  do 101 (destruct n as [|n]; [vm_compute; reflexivity|]).
  lia.
Qed.

(** X20.  For every whole percentage from 0 to 100 [createProgressBar]
    returns a bar of exactly ten cells, the first [(p + 5) / 10] of them
    filled (the tenth of the percentage, a half rounding up) and the rest
    empty; it does not throw. *)
Theorem createProgressBar_ten_cells (p : Z) :
  (0 <= p <= 100)%Z ->
  let filled := ((p + 5) / 10)%Z in
  (0 <= filled <= 10)%Z
  /\ createProgressBar (number_of_Z p)
     = Normal (repeat_string (Z.to_nat filled) FILLED_CELL
               +:+ repeat_string (Z.to_nat (10 - filled)) EMPTY_CELL).
Proof.
  intros Hp. cbv zeta. split.
  - split; [apply Z.div_pos; lia|].
    assert ((p + 5) / 10 < 11)%Z by (apply Z.div_lt_upper_bound; lia). lia.
  - rewrite <- (Z2Nat.id p) by lia. apply createProgressBar_nat. lia.
Qed.

Lemma createProgressBar_ten_cells_witness :
  createProgressBar (number_of_Z 67)
  = Normal (repeat_string 7 FILLED_CELL +:+ repeat_string 3 EMPTY_CELL).
Proof.
  assert (Hp : (0 <= 67 <= 100)%Z) by lia.
  destruct (createProgressBar_ten_cells 67 Hp) as [_ E]. exact E.
Defined.

(** * Statistics *)

Lemma remove_dups_length {A} `{EqDecision A} (l : list A) :
  (length (remove_dups l) <= length l)%nat.
Proof.
  induction l as [|x l IH]; [reflexivity|].
  cbn [remove_dups]. destruct (decide_rel elem_of x l); cbn [length]; lia.
Qed.

(** X21.  [getVotingStats] never writes and returns null exactly when the
    poll is not in the store; otherwise the total it reports is the
    number of vote rows of the poll, the number of unique voters is at
    most the total, there is one entry per option of the poll, and with
    no vote at all every percentage is 0. *)
Theorem getVotingStats_reports (d : DB) (p : string) :
  snd (getVotingStats memStats p d) = d
  /\ (fst (getVotingStats memStats p d) = None <-> polls d !! p = None)
  /\ forall s, fst (getVotingStats memStats p d) = Some s ->
       stats_totalVotes s = length (votes_of_poll p (votes d))
       /\ (uniqueVoters s <= stats_totalVotes s)%nat
       /\ length (stats_options s)
          = length (filter (fun o => option_pollId o = p) (pollOptions d))
       /\ (stats_totalVotes s = 0%nat ->
           Forall (fun o => stats_option_percentage o = PrimFloat.zero) (stats_options s)).
Proof.
  unfold getVotingStats, try_return, getVotingStats_body, bind, ret.
  cbn [poll_findUnique_counts vote_findMany_distinct_userId memStats].
  unfold mem_poll_findUnique_counts, mem_vote_findMany_distinct_userId.
  destruct (polls d !! p) as [row|] eqn:Hpoll; cbn [fmap option_fmap option_map fst snd].
  - split; [reflexivity|]. split; [split; discriminate|].
    intros s Hs. injection Hs as <-.
    cbn [stats_totalVotes uniqueVoters stats_options counts_votes counts_options].
    split; [reflexivity|]. split.
    + etransitivity; [apply remove_dups_length|]. rewrite length_map. reflexivity.
    + split.
      * rewrite !length_map. unfold sort_by_position.
        generalize (filter (fun o => option_pollId o = p) (pollOptions d)) as l.
        induction l as [|x l IH]; [reflexivity|].
        cbn [foldr length]. rewrite <- IH.
        generalize (foldr insert_by_position [] l) as sorted.
        induction sorted as [|y ys IHs]; [reflexivity|].
        cbn [insert_by_position]. destruct (position x <=? position y)%Z; [reflexivity|].
        cbn [length]. rewrite IHs. reflexivity.
      * intros Hzero. rewrite Hzero. apply Forall_forall. intros x Hx.
        apply list_elem_of_fmap in Hx as (y & -> & _). reflexivity.
  - split; [reflexivity|]. split; [split; reflexivity|]. intros s Hs. discriminate.
Qed.

(** * Failures of the store and the life of a new poll *)

(** X22.  A store that rejects the update of the status fails the
    closure job and the close command differently: the processor of the
    job throws the error of the store, so that the queue retries it, and
    sends nothing to Discord; [closePoll] answers "An error occurred
    while closing the poll."; the poll stays OPEN in both. *)
Theorem rejected_update_is_reported (e : JsError) (client : DiscordClient)
    (p : string) (w : World) (row : Poll) :
  polls (db w) !! p = Some row -> status row = OPEN ->
  pollCloseProcessor (rejecting_update e) client p w = (Throw e, w)
  /\ closePoll (rejecting_update e) okDiscord p (creatorId row) w
     = (Normal tt,
        mkWorld (db w) (queue w) (discord w ++ [Reply reply_close_error true])).
Proof.
  intros Hpoll Hst. destruct w as [d q l]. cbn [db queue discord] in *. split.
  - unfold pollCloseProcessor, try_catch, bind, worker_args, on_db, throw.
    cbn [poll_findUnique poll_update rejecting_update db queue discord].
    rewrite (mem_findUnique_found d (mkFindPollArgs p _ _ _) row Hpoll).
    unfold load_poll. cbn [poll_row]. rewrite Hst. reflexivity.
  - unfold closePoll, try_catch, bind, reply, closePoll_args, on_db, on_discord, throw.
    cbn [poll_findUnique poll_update rejecting_update interaction_reply okDiscord
         db queue discord].
    rewrite (mem_findUnique_found d (mkFindPollArgs p _ _ _) row Hpoll).
    unfold load_poll. cbn [poll_row]. rewrite String.eqb_refl, Hst. reflexivity.
Qed.

Lemma rejected_update_is_reported_witness :
  pollCloseProcessor (rejecting_update P1001) okDiscord "poll1" scheduledWorld
  = (Throw P1001, scheduledWorld).
Proof.
  destruct (rejected_update_is_reported P1001 okDiscord "poll1" scheduledWorld mockPoll
              eq_refl eq_refl) as [E _].
  exact E.
Defined.

(** X23.  A poll created with a duration takes votes until its expiry
    and not after, whether or not its closure job has run: on the store
    that [createPoll] leaves, a cast for the first option of the new poll
    succeeds exactly at the instants up to [now + duration * 60000]. *)
Theorem created_poll_takes_votes_until_expiry (o : CreateOptions)
    (guild channel user : string) (now later duration : Z) (w : World) :
  (2 <= length (opt_options o) <= 10)%nat ->
  polls (db w) !! new_id "poll" (idSupply (db w)) = None ->
  opt_duration o = Some duration -> duration <> 0%Z ->
  let w' := snd (createPoll memPrisma memQueue okDiscord o guild channel user
                            now later w) in
  forall voter t,
    success (fst (castVote memPrisma (new_id "poll" (idSupply (db w))) voter
                           (new_id "option" (S (idSupply (db w)))) t (db w'))) = true
    <-> (t <= now + duration * 60 * 1000)%Z.
Proof.
  intros Hlen Hfresh Hdur Hnz. cbv zeta. intros voter t.
  pose proof (createPoll_db o guild channel user now later w Hlen Hfresh) as Hdb.
  cbv zeta in Hdb.
  set (d' := db (snd (createPoll memPrisma memQueue okDiscord o guild channel user
                                 now later w))) in *.
  set (p := new_id "poll" (idSupply (db w))) in *.
  assert (Hrow : polls d' !! p
                 = Some (mkPoll p (opt_title o) (opt_description o) guild channel
                                (Some (new_id "message" (length (discord w)))) user
                                (default false (opt_multiple o))
                                (default false (opt_anonymous o))
                                OPEN (expiry_of (opt_duration o) now) now)).
  { rewrite Hdb. cbn [polls]. apply lookup_insert_eq. }
  assert (Hopts : pollOptions d'
                  = pollOptions (db w)
                    ++ new_options p (S (idSupply (db w))) (option_data (opt_options o))).
  { rewrite Hdb. reflexivity. }
  assert (Hexpiry : expiry_of (opt_duration o) now = Some (now + duration * 60 * 1000)%Z).
  { unfold expiry_of. rewrite Hdur. rewrite (proj2 (Z.eqb_neq _ _) Hnz). reflexivity. }
  rewrite Hexpiry in Hrow.
  assert (Hopt : exists opt, is_option_of d' p (new_id "option" (S (idSupply (db w)))) opt).
  { destruct (opt_options o) as [|t0 ts] eqn:Ho; [cbn in Hlen; lia|].
    eexists. unfold is_option_of. rewrite Hopts. split.
    - apply elem_of_app. right. unfold option_data, new_options. cbn [imap].
      apply list_elem_of_here.
    - cbn [option_pollId option_id]. rewrite Nat.add_0_r. split; reflexivity. }
  destruct Hopt as (opt & Hopt).
  destruct (Z.le_gt_cases t (now + duration * 60 * 1000)) as [Hle|Hgt].
  - split; [intros _; exact Hle|]. intros _.
    assert (Hyes : poll_accepts d' p (new_id "option" (S (idSupply (db w)))) t).
    { eexists _, opt. split; [exact Hrow|]. split; [reflexivity|]. split; [|exact Hopt].
      unfold expired. cbn [expiresAt]. apply Z.ltb_ge. exact Hle. }
    destruct (castVote_accepted d' p voter _ t Hyes)
      as [(v & rest & sel & _ & E)|(row' & sel & _ & _ & E)]; rewrite E; reflexivity.
  - split; [|lia].
    destruct (castVote_refused d' p voter (new_id "option" (S (idSupply (db w)))) t _ Hrow)
      as [_ E].
    rewrite E; [discriminate|reflexivity|].
    unfold expired. cbn [expiresAt]. apply Z.ltb_lt. lia.
Qed.

Lemma created_poll_takes_votes_until_expiry_witness :
  let o := mkCreateOptions "Colour" ["Red"; "Blue"] None None None (Some 60%Z) in
  let w := mkWorld (mkDB ∅ [] [] 0) ∅ [] in
  let w' := snd (createPoll memPrisma memQueue okDiscord o "guild1" "channel1" "userA"
                            1000 1005 w) in
  success (fst (castVote memPrisma (new_id "poll" 0) "userB" (new_id "option" 1)
                         3601000 (db w'))) = true.
Proof.
  cbv zeta.
  assert (Hlen : (2 <= length ["Red"; "Blue"] <= 10)%nat) by (cbn; lia).
  assert (Hfresh : polls (mkDB ∅ [] [] 0) !! new_id "poll" 0 = None)
    by (vm_compute; reflexivity).
  assert (Hnz : 60%Z <> 0%Z) by lia.
  apply (created_poll_takes_votes_until_expiry
           (mkCreateOptions "Colour" ["Red"; "Blue"] None None None (Some 60%Z))
           "guild1" "channel1" "userA" 1000 1005 60
           (mkWorld (mkDB ∅ [] [] 0) ∅ []) Hlen Hfresh eq_refl Hnz "userB" 3601000).
  lia.
Defined.

(** * Instances *)

Lemma castVote_succeeds_iff_witness :
  success (fst (castVote memPrisma "poll1" "user1" "nowhere" 10 mockDB)) = false
  /\ snd (castVote memPrisma "poll1" "user1" "nowhere" 10 mockDB) = mockDB.
Proof.
  destruct (castVote_succeeds_iff mockDB "poll1" "user1" "nowhere" 10) as [_ Hfail].
  split; [reflexivity|]. apply Hfail. reflexivity.
Defined.

Lemma validateVote_agrees_with_castVote_witness :
  reason (fst (validateVote memPrisma "poll1" "user1" "option1" 10 closedDB))
  = Some (message (fst (castVote memPrisma "poll1" "user1" "option1" 10 closedDB))).
Proof.
  destruct (validateVote_agrees_with_castVote closedDB "poll1" "user1" "option1" 10)
    as (_ & _ & Hreason).
  apply Hreason. reflexivity.
Defined.

Lemma removePollCloseJob_only_that_poll_witness :
  queue (snd (removePollCloseJob memQueue "poll2" scheduledWorld)) !! jobId_of "poll1"
  = queue scheduledWorld !! jobId_of "poll1".
Proof.
  destruct (removePollCloseJob_only_that_poll "poll2" scheduledWorld) as (_ & _ & Hother & _).
  apply Hother. discriminate.
Defined.

Lemma getVotingStats_reports_witness :
  exists s, fst (getVotingStats memStats "poll1" votedDB) = Some s
            /\ stats_totalVotes s = 3%nat /\ (uniqueVoters s <= 3)%nat.
Proof.
  destruct (getVotingStats_reports votedDB "poll1") as (_ & _ & Hfound).
  eexists. split; [reflexivity|].
  destruct (Hfound _ eq_refl) as (Htotal & Huniq & _).
  split; [exact Htotal|]. rewrite Htotal in Huniq. exact Huniq.
Defined.
